(** * Sweep planner, reconciler, drain loop and session hand-off of the
      2450 I-V sweep tools

    Shallow embedding of the coordination core of
    [2450/2450_gui_iv_multiple.py] and [2450/2450_receive_and_iv_multiple.py].
    Python floats are IEEE binary64 numbers, so they are modelled by Rocq's
    primitive floats: every concrete run below computes the same bits as the
    interpreter does. *)

From Stdlib Require Import Floats ZArith Lia Bool String.
From stdpp Require Import base list gmap strings pretty.

Set Warnings "-inexact-float,-register-all,-clear-no-such-hyp".

(** ** Python float primitives *)

Module PyFloat.

(** [abs(x)] *)
Definition py_abs (x : float) : float := PrimFloat.abs x.

(** [a > b] and [a < b] on floats (false as soon as one side is a NaN). *)
Definition gt (a b : float) : bool := PrimFloat.ltb b a.
Definition lt (a b : float) : bool := PrimFloat.ltb a b.
Definition ge (a b : float) : bool := PrimFloat.leb b a.
Definition le (a b : float) : bool := PrimFloat.leb a b.

(** [max(a, b)]: the builtin keeps its first argument unless a later one
    compares greater. *)
Definition py_max (a b : float) : float := if gt b a then b else a.
Definition py_min (a b : float) : float := if lt b a then b else a.
Definition py_max3 (a b c : float) : float := py_max (py_max a b) c.
Definition py_min3 (a b c : float) : float := py_min (py_min a b) c.

(** [min(xs)] of a non-empty list, [None] standing for the [ValueError] of
    an empty argument. *)
Definition py_min_list (xs : list float) : option float :=
  match xs with
  | [] => None
  | x :: r => Some (foldl py_min x r)
  end.

Definition is_inf (x : float) : bool :=
  PrimFloat.eqb (PrimFloat.abs x) infinity.

(** The default relative tolerance of [math.isclose]. *)
Definition rel_tol : float := 1e-9%float.

(** [math.isclose(a, b, abs_tol=t)] once its arguments are accepted
    (CPython's [math_isclose_impl]). *)
Definition isclose_body (a b abs_tol : float) : bool :=
  if PrimFloat.eqb a b then true
  else if is_inf a || is_inf b then false
  else
    let diff := py_abs (b - a)%float in
    le diff (py_abs (rel_tol * b)%float)
    || le diff (py_abs (rel_tol * a)%float)
    || le diff abs_tol.

(** [math.isclose] raises [ValueError] on a negative tolerance; [None]
    stands for that error. *)
Definition isclose (a b abs_tol : float) : option bool :=
  if lt abs_tol 0%float then None else Some (isclose_body a b abs_tol).

End PyFloat.

(** ** Exceptions and results of the Python code *)

Module Py.

(** The VISA completion codes a failed channel operation reports;
    [VI_ERROR_TMO] is the read timeout. *)
Inductive visa_status : Type :=
| VI_ERROR_TMO
| VI_ERROR_IO
| VI_ERROR_CONN_LOST.

(** The exceptions the modelled code raises or lets through.  All of them
    derive from [Exception]; [pyvisa.VisaIOError] carries its status. *)
Inductive exn : Type :=
| ValueError (msg : string)
| RuntimeError (msg : string)
| OverflowError (msg : string)
| FileNotFoundError (msg : string)
| VisaIOError (status : visa_status).

(** [str(error)] of a [VisaIOError], shortened to the name of its status. *)
Definition visa_text (status : visa_status) : string :=
  match status with
  | VI_ERROR_TMO => "VI_ERROR_TMO"
  | VI_ERROR_IO => "VI_ERROR_IO"
  | VI_ERROR_CONN_LOST => "VI_ERROR_CONN_LOST"
  end.

(** [str(error)] *)
Definition exn_text (e : exn) : string :=
  match e with
  | ValueError msg | RuntimeError msg | OverflowError msg
  | FileNotFoundError msg => msg
  | VisaIOError status => visa_text status
  end.

(** What running a piece of code gives: a value, a raised exception, or
    [Spinning] when the allotted number of loop turns ran out with the
    loop still going. *)
Inductive result (A : Type) : Type :=
| Ok (a : A)
| Raised (e : exn)
| Spinning.

Arguments Ok {A} a.
Arguments Raised {A} e.
Arguments Spinning {A}.

Definition bind {A B : Type} (m : result A) (k : A → result B) : result B :=
  match m with
  | Ok a => k a
  | Raised e => Raised e
  | Spinning => Spinning
  end.

Notation "x <- m ;; k" := (bind m (λ x, k))
  (at level 100, m at next level, right associativity).

(** [math.isclose] with its argument check. *)
Definition math_isclose (a b abs_tol : float) : result bool :=
  match PyFloat.isclose a b abs_tol with
  | Some b => Ok b
  | None => Raised (ValueError "tolerances must be non-negative")
  end.

(** [s.strip()]: the ASCII characters Python counts as white space are
    tab to carriage return (9-13), the separators 28-31 and the blank. *)
Definition is_space (c : Ascii.ascii) : bool :=
  let n := Ascii.nat_of_ascii c in
  ((9 <=? n)%nat && (n <=? 13)%nat) || ((28 <=? n)%nat && (n <=? 32)%nat).

Fixpoint py_lstrip (s : string) : string :=
  match s with
  | EmptyString => EmptyString
  | String c rest => if is_space c then py_lstrip rest else s
  end.

Fixpoint py_rstrip (s : string) : string :=
  match s with
  | EmptyString => EmptyString
  | String c rest =>
      match py_rstrip rest with
      | EmptyString => if is_space c then EmptyString else String c EmptyString
      | kept => String c kept
      end
  end.

Definition py_strip (s : string) : string := py_rstrip (py_lstrip s).

(** The truth value of a string: non-empty. *)
Definition truthy (s : string) : bool :=
  match s with EmptyString => false | String _ _ => true end.

End Py.

(** ** VoltageReconciler: [IVSweepApp._match_voltage_sequence] *)

Module Reconciler.
Import PyFloat.

(** [abs(exp_value - act_value) > tolerance] at index [idx]. *)
Definition deviates (tolerance : float) (expected actual : list float)
    (idx : nat) : bool :=
  match expected !! idx, actual !! idx with
  | Some exp_value, Some act_value =>
      gt (py_abs (exp_value - act_value)%float) tolerance
  | _, _ => false
  end.

(** The comprehension
    [[abs(expected[i+1] - expected[i]) for i in range(length - 1)
      if not math.isclose(expected[i+1], expected[i], abs_tol=1e-12)]].
    Every index it reads is below [length <= len(expected)]; the last
    branch is the out-of-range read that therefore never happens. *)
Definition step_candidates (expected : list float) (length : nat)
    : list float :=
  flat_map
    (λ i, match expected !! (i + 1), expected !! i with
          | Some hi, Some lo =>
              if isclose_body hi lo 1e-12%float then []
              else [py_abs (hi - lo)%float]
          | _, _ => []
          end)
    (seq 0 (length - 1)).

(** [min(step_candidates) if step_candidates else 0.0] *)
Definition base_step (expected : list float) (length : nat) : float :=
  match py_min_list (step_candidates expected length) with
  | Some m => m
  | None => 0%float
  end.

(** [max(base_step * 0.02, 1e-6)] *)
Definition tolerance_of (expected : list float) (length : nat) : float :=
  py_max (base_step expected length * 0.02)%float 1e-6%float.

(** One turn of the [for idx in range(length)] loop; the state is
    [(matched, stuck_index)]. *)
Definition scan_step (tolerance : float) (expected actual : list float)
    (st : list float * option nat) (idx : nat) : list float * option nat :=
  match expected !! idx, actual !! idx with
  | Some exp_value, Some act_value =>
      let stuck_index :=
        match st.2 with
        | None =>
            if gt (py_abs (exp_value - act_value)%float) tolerance
            then Some idx else None
        | Some k => Some k
        end in
      match stuck_index with
      | None => (st.1 ++ [act_value], stuck_index)
      | Some _ => (st.1 ++ [exp_value], stuck_index)
      end
  | _, _ => st
  end.

Definition scan (tolerance : float) (expected actual : list float)
    (length : nat) : list float * option nat :=
  foldl (scan_step tolerance expected actual) ([], None) (seq 0 length).

Definition _match_voltage_sequence (expected actual : list float)
    : list float :=
  match expected, actual with
  | [], _ | _, [] => actual
  | _, _ =>
      let length := Nat.min (length expected) (length actual) in
      let tolerance := tolerance_of expected length in
      let matched := (scan tolerance expected actual length).1 in
      if (length <? List.length actual)%nat
      then matched ++ drop length actual
      else matched
  end.

(** The tolerance the function works with, as a function of its two
    arguments. *)
Definition tolerance (expected actual : list float) : float :=
  tolerance_of expected (Nat.min (length expected) (length actual)).

(** *** The reading of the specification

    [baseStep] is the minimum non-zero absolute difference between
    consecutive commanded levels, over the whole commanded sequence. *)
Fixpoint spec_differences (commanded : list float) : list float :=
  match commanded with
  | a :: (b :: _) as rest => py_abs (b - a)%float :: spec_differences rest
  | _ => []
  end.

Definition spec_base_step (commanded : list float) : float :=
  match py_min_list
          (filter (λ d, PrimFloat.eqb d 0%float = false)
                  (spec_differences commanded)) with
  | Some m => m
  | None => 0%float
  end.

Definition spec_tolerance (commanded : list float) : float :=
  py_max (spec_base_step commanded * 0.02)%float 1e-6%float.

(** [k] is the first index below [length] where commanded and measured
    differ by more than [tol]. *)
Definition first_deviation (tol : float) (commanded measured : list float)
    (k : nat) : Prop :=
  k < Nat.min (length commanded) (length measured)
  ∧ deviates tol commanded measured k = true
  ∧ ∀ j, j < k → deviates tol commanded measured j = false.

(** What the result must be once the first deviation is at [k]. *)
Definition sticky_from (k : nat) (commanded measured result : list float)
    : Prop :=
  ∀ i,
    (i < k → result !! i = measured !! i)
    ∧ (k ≤ i < Nat.min (length commanded) (length measured) →
       result !! i = commanded !! i)
    ∧ (Nat.min (length commanded) (length measured) ≤ i →
       result !! i = measured !! i).

End Reconciler.

(** ** SegmentPlanner: [IVSweepApp._build_segments] *)

Module Planner.
Import PyFloat Py.

(** The sweep parameters, the tuple
    [(start_v, stop_v, step_v, ilimit, nplc, settle)]. *)
Record sweep_params : Type := SweepParams {
  start_v : float;
  stop_v : float;
  step_v : float;
  ilimit : float;
  nplc : float;
  settle : float
}.

(** A segment [(start, stop, seg_step)]. *)
Definition segment : Type := float * float * float.

Definition zero_step_message : string := "Step voltage must not be zero.".

(** [epsilon = step_mag * 1e-9 + 1e-12] *)
Definition epsilon_of (step_mag : float) : float :=
  (step_mag * 1e-9 + 1e-12)%float.

(** The clamp at the head of the [while True] body: a step that would pass
    [stop] by more than [epsilon] lands on [stop]. *)
Definition clamp (epsilon stop : float) (direction : Z) (next_level : float)
    : float :=
  if (0 <? direction)%Z && gt next_level (stop + epsilon)%float then stop
  else if (direction <? 0)%Z && lt next_level (stop - epsilon)%float then stop
  else next_level.

(** The [while True] loop of [generate_segment_levels]; [fuel] bounds the
    number of turns. *)
Fixpoint ladder_loop (fuel : nat) (epsilon stop seg_step : float)
    (direction : Z) (current : float) (levels : list float)
    : result (list float) :=
  match fuel with
  | O => Spinning
  | S fuel' =>
      let next_level := clamp epsilon stop direction (current + seg_step)%float in
      stalled <- math_isclose next_level current epsilon ;;
      if stalled : bool then Ok levels
      else
        let levels := levels ++ [next_level] in
        let current := next_level in
        arrived <- math_isclose current stop epsilon ;;
        if arrived : bool then Ok levels
        else ladder_loop fuel' epsilon stop seg_step direction current levels
  end.

Definition generate_segment_levels (fuel : nat) (epsilon : float)
    (start stop seg_step : float) : result (list float) :=
  let levels := [start] in
  no_step <- math_isclose seg_step 0%float epsilon ;;
  if no_step : bool then Ok levels
  else
    let direction := if gt seg_step 0%float then 1%Z else (-1)%Z in
    ladder_loop fuel epsilon stop seg_step direction start levels.

(** [append_segment] updates the two lists of the enclosing call,
    [segments] and [path_levels]. *)
Definition append_segment (fuel : nat) (epsilon step_mag : float)
    (st : list segment * list float) (start stop : float)
    : result (list segment * list float) :=
  same <- math_isclose start stop epsilon ;;
  if same : bool then Ok st
  else
    let seg_step := if ge stop start then step_mag else (- step_mag)%float in
    let segments := st.1 ++ [(start, stop, seg_step)] in
    segment_levels <- generate_segment_levels fuel epsilon start stop seg_step ;;
    Ok (segments, st.2 ++ segment_levels).

Definition _build_segments (fuel : nat) (params : sweep_params)
    : result (list segment * list float) :=
  let step_mag := py_abs (step_v params) in
  zero <- math_isclose step_mag 0%float 1e-15%float ;;
  if zero : bool then Raised (ValueError zero_step_message)
  else
    let epsilon := epsilon_of step_mag in
    let positive_target := py_max3 (start_v params) (stop_v params) 0%float in
    let negative_target := py_min3 (start_v params) (stop_v params) 0%float in
    st <- (if gt positive_target epsilon then
             st <- append_segment fuel epsilon step_mag ([], []) 0%float positive_target ;;
             append_segment fuel epsilon step_mag st positive_target 0%float
           else Ok ([], [])) ;;
    st <- (if lt negative_target (- epsilon)%float then
             st <- append_segment fuel epsilon step_mag st 0%float negative_target ;;
             append_segment fuel epsilon step_mag st negative_target 0%float
           else Ok st) ;;
    st <- (match st.1 with
           | [] =>
               path_levels <- generate_segment_levels fuel epsilon
                                (start_v params) (stop_v params) (step_v params) ;;
               Ok ([(start_v params, stop_v params, step_v params)], path_levels)
           | _ :: _ => Ok st
           end) ;;
    let path_levels := match st.2 with [] => [0%float] | _ :: _ => st.2 end in
    Ok (st.1, path_levels).

(** The ladder of one planned segment, as [append_segment] generates it. *)
Definition segment_ladder (fuel : nat) (epsilon : float) (seg : segment)
    : result (list float) :=
  generate_segment_levels fuel epsilon seg.1.1 seg.1.2 seg.2.

(** [x] is within [epsilon] of [target]: the planner's own closeness test. *)
Definition within (epsilon : float) (x target : float) : Prop :=
  isclose_body x target epsilon = true.

(** The default form values: start -4.0, stop 4.0, step 0.1, one run. *)
Definition default_params : sweep_params :=
  SweepParams (-4) 4 0.1 0.5 1 0.01.

Definition default_segments : list segment :=
  [(0, 4, 0.1); (4, 0, -0.1); (0, -4, -0.1); (-4, 0, 0.1)]%float.

(** A sweep whose step is 1e-13: above the 1e-15 bound of the zero check
    of [_build_segments], below the [epsilon] (about 1e-12) that
    [generate_segment_levels] compares it with. *)
Definition tiny_step_params : sweep_params :=
  SweepParams (-4) 4 1e-13 0.5 1 0.01.

Definition tiny_step_segments : list segment :=
  [(0, 4, 1e-13); (4, 0, -1e-13); (0, -4, -1e-13); (-4, 0, 1e-13)]%float.

End Planner.

(** ** The command channel *)

Module Visa.
Import Py.

(** What the next [read()] on the session meets: a response line, or a
    failure of the transfer. *)
Inductive incoming : Type :=
| Line (text : string)
| Fault (status : visa_status).

(** An open session: the responses still to come, the lines written so
    far, and the number of writes the link still carries ([None]: it never
    breaks). *)
Record instrument : Type := Instrument {
  inbox : list incoming;
  outbox : list string;
  writes_left : option nat
}.

(** [inst.write(line)] *)
Definition write (inst : instrument) (line : string)
    : instrument * option visa_status :=
  match writes_left inst with
  | Some O => (inst, Some VI_ERROR_IO)
  | Some (S n) =>
      (Instrument (inbox inst) (outbox inst ++ [line]) (Some n), None)
  | None => (Instrument (inbox inst) (outbox inst ++ [line]) None, None)
  end.

(** [inst.read()]: with nothing left to come the instrument stays silent
    and the read times out. *)
Definition read (inst : instrument) : instrument * (visa_status + string) :=
  match inbox inst with
  | [] => (inst, inl VI_ERROR_TMO)
  | Line text :: rest =>
      (Instrument rest (outbox inst) (writes_left inst), inr text)
  | Fault status :: rest =>
      (Instrument rest (outbox inst) (writes_left inst), inl status)
  end.

(** The stop event as the worker thread sees it: [None] when nobody sets
    it, [Some n] when it reads as set after [n] more polls. *)
Definition stop_event : Type := option nat.

(** [stop_event.is_set()] *)
Definition is_set (ev : stop_event) : bool * stop_event :=
  match ev with
  | None => (false, None)
  | Some O => (true, Some O)
  | Some (S n) => (false, Some n)
  end.

End Visa.

(** ** SweepExecutor, the drain loop: [IVSweepApp._read_until_marker] *)

Module Drain.
Import Py Visa.

(** What a call of the per-line callback does to the state it closes over:
    it returns, or it raises after having changed part of it. *)
Inductive cb_result (S : Type) : Type :=
| Returned (s : S)
| Threw (e : exn) (s : S).

Arguments Returned {S} s.
Arguments Threw {S} e s.

Definition cb_state {S : Type} (r : cb_result S) : S :=
  match r with Returned s | Threw _ s => s end.

Definition wait_failure (status : visa_status) : string :=
  "Failed while waiting for sweep output: " +:+ visa_text status.

(** Where the loop stands when it is left. *)
Record drain_end (S : Type) : Type := DrainEnd {
  rest_inbox : list incoming;
  rest_stop : stop_event;
  rest_cb : S
}.

Arguments DrainEnd {S} rest_inbox rest_stop rest_cb.
Arguments rest_inbox {S} d.
Arguments rest_stop {S} d.
Arguments rest_cb {S} d.

(** The [while True] loop.  Each turn polls the stop event and reads once,
    so the loop is at its end when the responses are: the read that meets
    none times out. *)
Fixpoint read_loop {S : Type} (marker : string)
    (on_line : option (string → S → cb_result S))
    (inbox : list incoming) (stop : stop_event) (cb : S)
    (lines : list string) : result (list string) * drain_end S :=
  let '(cancelled, stop) := is_set stop in
  if cancelled then
    (Raised (RuntimeError "Sweep cancelled."), DrainEnd inbox stop cb)
  else
    match inbox with
    | [] =>
        (Raised (RuntimeError (wait_failure VI_ERROR_TMO)), DrainEnd [] stop cb)
    | Fault status :: rest =>
        (Raised (RuntimeError (wait_failure status)), DrainEnd rest stop cb)
    | Line text :: rest =>
        let line := py_strip text in
        if String.eqb line marker then (Ok lines, DrainEnd rest stop cb)
        else if truthy line then
          let cb :=
            match on_line with
            | Some f =>
                match f line cb with
                | Returned s => s
                | Threw _ s => s
                end
            | None => cb
            end in
          read_loop marker on_line rest stop cb (lines ++ [line])
        else read_loop marker on_line rest stop cb lines
    end.

(** [_read_until_marker(marker, on_line)] on the session [inst]
    ([None]: not connected). *)
Definition _read_until_marker {S : Type} (inst : option instrument)
    (stop : stop_event) (marker : string)
    (on_line : option (string → S → cb_result S)) (cb : S)
    : result (list string) * (option instrument * stop_event * S) :=
  match inst with
  | None => (Ok [], (None, stop, cb))
  | Some i =>
      let '(r, e) := read_loop marker on_line (inbox i) stop cb [] in
      (r, (Some (Instrument (rest_inbox e) (outbox i) (writes_left i)),
           rest_stop e, rest_cb e))
  end.

(** The callback [f] with its exceptions taken away: it does to the state
    what [f] does and always returns. *)
Definition calm {S : Type} (f : string → S → cb_result S)
    : string → S → cb_result S :=
  λ line s, Returned (cb_state (f line s)).

(** A response that is neither the marker nor blank once stripped. *)
Definition data_line (marker : string) (text : string) : bool :=
  negb (String.eqb (py_strip text) marker) && truthy (py_strip text).

(** A response that does not end the loop. *)
Definition not_marker (marker : string) (ev : incoming) : bool :=
  match ev with
  | Line text => negb (String.eqb (py_strip text) marker)
  | Fault _ => false
  end.

End Drain.

(** ** ProgressReporter: [IVSweepApp._snapshot_entries]

    The run entries are Python objects: a list of dicts whose values are
    numbers, strings and further lists.  Lists and dicts live on a heap and
    are reached through references, so that two variables may name the same
    object; [copy.deepcopy] builds new objects. *)

Module Snapshot.

Definition loc : Type := positive.

(** A Python value: an immutable atom or a reference to a heap object. *)
Inductive value : Type :=
| VNone
| VBool (b : bool)
| VInt (z : Z)
| VFloat (f : float)
| VStr (s : string)
| VRef (l : loc).

(** A mutable object: a list, or a dict with string keys in insertion
    order. *)
Inductive obj : Type :=
| OList (items : list value)
| ODict (items : list (string * value)).

(** The values an object holds, and the object with other values in their
    places. *)
Definition obj_values (o : obj) : list value :=
  match o with
  | OList items => items
  | ODict items => items.*2
  end.

Definition obj_with (o : obj) (values : list value) : obj :=
  match o with
  | OList _ => OList values
  | ODict items => ODict (zip items.*1 values)
  end.

(** The copy in progress: the heap, and the memo of [deepcopy] that maps
    each object already met to its copy. *)
Definition copy_state : Type := gmap loc obj * gmap loc loc.

Fixpoint copy_items
    (cp : value → copy_state → option (value * copy_state))
    (items : list value) (st : copy_state)
    : option (list value * copy_state) :=
  match items with
  | [] => Some ([], st)
  | x :: rest =>
      match cp x st with
      | None => None
      | Some (x', st) =>
          match copy_items cp rest st with
          | None => None
          | Some (rest', st) => Some (x' :: rest', st)
          end
      end
  end.

(** [copy.deepcopy(x, memo)].  Atoms are returned as they are; an object
    found in the memo gives its copy; any other object gets a new, empty
    object, recorded in the memo before the items are copied into it one
    after the other.  [fuel] bounds the depth of the recursion; a
    reference to no object gives [None]. *)
Fixpoint deepcopy_rec (fuel : nat) (x : value) (st : copy_state)
    : option (value * copy_state) :=
  match x with
  | VRef l =>
      match st.2 !! l with
      | Some l' => Some (VRef l', st)
      | None =>
          match fuel with
          | O => None
          | S fuel =>
              match st.1 !! l with
              | None => None
              | Some o =>
                  let l' := fresh (dom st.1) in
                  let st := (<[l' := obj_with o []]> st.1, <[l := l']> st.2) in
                  match copy_items (deepcopy_rec fuel) (obj_values o) st with
                  | None => None
                  | Some (items', st) =>
                      Some (VRef l', (<[l' := obj_with o items']> st.1, st.2))
                  end
              end
          end
      end
  | _ => Some (x, st)
  end.

(** [copy.deepcopy(x)]: the heap afterwards and the copy. *)
Definition deepcopy (fuel : nat) (h : gmap loc obj) (x : value)
    : option (gmap loc obj * value) :=
  match deepcopy_rec fuel x (h, ∅) with
  | None => None
  | Some (x', st) => Some (st.1, x')
  end.

(** [IVSweepApp._snapshot_entries(entries)] *)
Definition _snapshot_entries (fuel : nat) (h : gmap loc obj) (entries : value)
    : option (gmap loc obj * value) :=
  deepcopy fuel h entries.

(** What a reader sees when it follows a value through the heap. *)
Inductive tree : Type :=
| TAtom (v : value)
| TList (items : list tree)
| TDict (items : list (string * tree)).

Definition obj_tree (o : obj) (children : list tree) : tree :=
  match o with
  | OList _ => TList children
  | ODict items => TDict (zip items.*1 children)
  end.

(** The trees of a list of values, provided each of them has one. *)
Fixpoint traverse {A B : Type} (f : A → option B) (l : list A)
    : option (list B) :=
  match l with
  | [] => Some []
  | x :: rest =>
      match f x with
      | None => None
      | Some y =>
          match traverse f rest with
          | None => None
          | Some ys => Some (y :: ys)
          end
      end
  end.

Fixpoint view (fuel : nat) (h : gmap loc obj) (x : value) : option tree :=
  match x with
  | VRef l =>
      match fuel with
      | O => None
      | S fuel =>
          match h !! l with
          | None => None
          | Some o => obj_tree o <$> traverse (view fuel h) (obj_values o)
          end
      end
  | _ => Some (TAtom x)
  end.

(** The object a value refers to, if it is a reference. *)
Definition ref_of (x : value) : option loc :=
  match x with
  | VRef l => Some l
  | _ => None
  end.

(** Every reference held by an object of the heap leads to an object of
    the heap. *)
Definition closed (h : gmap loc obj) : Prop :=
  ∀ l o r, h !! l = Some o → VRef r ∈ obj_values o → r ∈ dom h.

(** [h'] differs from [h] at most on the objects that [live] holds: the
    live objects may have been changed in any way, and new objects may have
    been created. *)
Definition mutated_within (live : gset loc) (h h' : gmap loc obj) : Prop :=
  ∀ l, l ∈ dom h → l ∉ live → h' !! l = h !! l.

(** *** Mutations by the worker *)

(** Any change in place of the object at [l]: an append, an item or key
    assignment, a slice assignment. *)
Definition store (h : gmap loc obj) (l : loc) (o : obj) : gmap loc obj :=
  <[l := o]> h.

(** [list(xs)]: a new list object. *)
Definition new_list (h : gmap loc obj) (items : list value)
    : gmap loc obj * loc :=
  let l := fresh (dom h) in (<[l := OList items]> h, l).

(** [d[key] = v] on the items of a dict. *)
Fixpoint set_key (items : list (string * value)) (key : string) (v : value)
    : list (string * value) :=
  match items with
  | [] => [(key, v)]
  | (k, w) :: rest =>
      if String.eqb k key then (k, v) :: rest
      else (k, w) :: set_key rest key v
  end.

Definition dict_set (h : gmap loc obj) (d : loc) (key : string) (v : value)
    : gmap loc obj :=
  match h !! d with
  | Some (ODict items) => store h d (ODict (set_key items key v))
  | _ => h
  end.

(** [entry[key] = list(xs)] *)
Definition assign_list (h : gmap loc obj) (entry : loc) (key : string)
    (xs : list value) : gmap loc obj :=
  let '(h, l) := new_list h xs in dict_set h entry key (VRef l).

(** The updates of [current_entry] in [handle_point], after a point was
    appended to the lists of the run. *)
Definition publish_point (h : gmap loc obj) (entry : loc)
    (run_voltages run_currents run_commanded : list float) : gmap loc obj :=
  let h := assign_list h entry "actual_voltages" (VFloat <$> run_voltages) in
  let h := assign_list h entry "currents" (VFloat <$> run_currents) in
  let h := assign_list h entry "corrected_voltages" (VFloat <$> run_commanded) in
  dict_set h entry "point_count" (VInt (Z.of_nat (length run_currents))).

(** *** The run entries of the worker, as objects *)

(** One run entry, the dict [current_entry], with the lists it holds at
    [voltages], [currents], [corrected] and [lines]. *)
Definition entry_dict (run_index : Z) (voltages currents corrected lines : loc)
    (point_count : Z) (color : string) (adjusted : bool) : obj :=
  ODict [("run_index"%string, VInt run_index);
         ("actual_voltages"%string, VRef voltages);
         ("currents"%string, VRef currents);
         ("corrected_voltages"%string, VRef corrected);
         ("printed_lines"%string, VRef lines);
         ("point_count"%string, VInt point_count);
         ("color"%string, VStr color);
         ("adjusted"%string, VBool adjusted)].

(** A heap with [run_entries] at 1 holding one entry (at 2) of two points. *)
Definition sample_heap : gmap loc obj :=
  {[ 1%positive := OList [VRef 2%positive];
     2%positive := entry_dict 1 3%positive 4%positive 5%positive 6%positive 2
                     "tab:blue" false;
     3%positive := OList [VFloat 0; VFloat 0.1];
     4%positive := OList [VFloat 0; VFloat 2e-3];
     5%positive := OList [VFloat 0; VFloat 0.1];
     6%positive := OList [VStr "1, 0, 0"; VStr "2, 0.1, 2e-3"] ]}.

(** The lists of the run once a third point has come in. *)
Definition three_voltages : list float := [0; 0.1; 0.2]%float.
Definition three_currents : list float := [0; 2e-3; 4e-3]%float.

End Snapshot.

(** ** SweepExecutor and SweepRunner: [IVSweepApp._perform_sweep] and
       [IVSweepApp._sweep_worker] *)

Module Sweep.
Import PyFloat Py Visa Drain Planner.

(** *** Text of the responses *)

Fixpoint replace_char (a b : Ascii.ascii) (s : string) : string :=
  match s with
  | EmptyString => EmptyString
  | String c rest =>
      String (if Ascii.eqb c a then b else c) (replace_char a b rest)
  end.

(** [s.split(sep)] for a one-character separator: the pieces between the
    separators, empty ones included. *)
Fixpoint split_char (sep : Ascii.ascii) (s : string) : list string :=
  match s with
  | EmptyString => [EmptyString]
  | String c rest =>
      let parts := split_char sep rest in
      if Ascii.eqb c sep then EmptyString :: parts
      else match parts with
           | p :: ps => String c p :: ps
           | [] => [String c EmptyString]
           end
  end.

(** The pieces between characters that satisfy [p]. *)
Fixpoint split_where (p : Ascii.ascii → bool) (s : string) : list string :=
  match s with
  | EmptyString => [EmptyString]
  | String c rest =>
      let parts := split_where p rest in
      if p c then EmptyString :: parts
      else match parts with
           | q :: qs => String c q :: qs
           | [] => [String c EmptyString]
           end
  end.

(** [s.split()]: the runs of characters that are not white space. *)
Definition py_split (s : string) : list string :=
  List.filter truthy (split_where is_space s).

Definition comma : Ascii.ascii := Ascii.ascii_of_nat 44.
Definition blank : Ascii.ascii := Ascii.ascii_of_nat 32.
Definition newline : Ascii.ascii := Ascii.ascii_of_nat 10.

(** [int(x)] of a float: truncation toward zero, [ValueError] for a NaN
    and [OverflowError] for an infinity. *)
Definition py_int (x : float) : result Z :=
  match Prim2SF x with
  | S754_zero _ => Ok 0%Z
  | S754_infinity _ =>
      Raised (OverflowError "cannot convert float infinity to integer")
  | S754_nan => Raised (ValueError "cannot convert float NaN to integer")
  | S754_finite s m e =>
      let magnitude := Z.shiftl (Z.pos m) e in
      Ok (if s then (- magnitude)%Z else magnitude)
  end.

(** [x.is_integer()] *)
Definition is_integer (x : float) : bool :=
  match Prim2SF x with
  | S754_zero _ => true
  | S754_infinity _ | S754_nan => false
  | S754_finite _ m e =>
      (0 <=? e)%Z || (Z.pos m mod 2 ^ (- e) =? 0)%Z
  end.

(** *** Run entries *)

(** The dict [current_entry] of one run. *)
Record run_entry : Type := RunEntry {
  run_index : nat;
  actual_voltages : list float;
  currents : list float;
  corrected_voltages : list float;
  printed_lines : list string;
  point_count : nat;
  color : string;
  adjusted : bool
}.

Definition RUN_COLORS : list string :=
  ["tab:blue"; "tab:orange"; "tab:green"; "tab:red"; "tab:purple";
   "tab:brown"; "tab:pink"; "tab:gray"; "tab:olive"; "tab:cyan"]%string.

(** The callbacks the worker hands to the event loop with [root.after]. *)
Inductive ui_call : Type :=
| UpdateLivePlot (snapshot : list run_entry)
| SweepFailed (error : exn)
| SweepComplete (entries : list run_entry).

(** [_snapshot_entries(run_entries)].  Run entries are values here, and a
    deep copy of a value is that value; the objects behind them and what
    the copy does to the heap are the subject of [Snapshot]. *)
Definition _snapshot_entries (entries : list run_entry) : list run_entry :=
  entries.

(** *** State of the worker *)

(** What the per-point callback and the segment loop work on: the lists of
    [_perform_sweep] filled while lines come in, the lists of the run, the
    run entries (the last one is [current_entry]) and the callbacks posted
    so far. *)
Record live : Type := Live {
  segment_voltages : list float;
  segment_currents : list float;
  command_index : nat;
  run_voltages : list float;
  run_currents : list float;
  run_commanded : list float;
  run_lines : list string;
  run_entries : list run_entry;
  posted : list ui_call
}.

(** The worker's view of the application: the session behind [self.inst],
    the stop event, [self.script_loaded], the position in
    [self.run_color_cycle], the log, and the data above. *)
Record wstate : Type := WState {
  w_inst : option instrument;
  w_stop : stop_event;
  w_script_loaded : bool;
  w_color : nat;
  w_log : list string;
  w_live : live
}.

Definition set_live (f : live → live) (w : wstate) : wstate :=
  WState (w_inst w) (w_stop w) (w_script_loaded w) (w_color w) (w_log w)
         (f (w_live w)).

Definition set_inst (i : option instrument) (w : wstate) : wstate :=
  WState i (w_stop w) (w_script_loaded w) (w_color w) (w_log w) (w_live w).

Definition set_stop (s : stop_event) (w : wstate) : wstate :=
  WState (w_inst w) s (w_script_loaded w) (w_color w) (w_log w) (w_live w).

Definition set_script_loaded (b : bool) (w : wstate) : wstate :=
  WState (w_inst w) (w_stop w) b (w_color w) (w_log w) (w_live w).

Definition set_color (n : nat) (w : wstate) : wstate :=
  WState (w_inst w) (w_stop w) (w_script_loaded w) n (w_log w) (w_live w).

Definition add_log (line : string) (w : wstate) : wstate :=
  WState (w_inst w) (w_stop w) (w_script_loaded w) (w_color w)
         (w_log w ++ [line]) (w_live w).

Definition post (c : ui_call) (l : live) : live :=
  Live (segment_voltages l) (segment_currents l) (command_index l)
       (run_voltages l) (run_currents l) (run_commanded l) (run_lines l)
       (run_entries l) (posted l ++ [c]).

(** [current_entry] is the entry appended last. *)
Definition update_current (f : run_entry → run_entry)
    (entries : list run_entry) : list run_entry :=
  match reverse entries with
  | [] => []
  | current :: earlier => reverse (f current :: earlier)
  end.

(** Code that runs on a state and may raise: the state it leaves is kept
    whether it returns or raises. *)
Definition job (St A : Type) : Type := St → result A * St.

Definition ret {St A : Type} (a : A) : job St A := λ s, (Ok a, s).

Definition raise {St A : Type} (e : exn) : job St A := λ s, (Raised e, s).

Definition jbind {St A B : Type} (m : job St A) (k : A → job St B)
    : job St B :=
  λ s, match m s with
       | (Ok a, s) => k a s
       | (Raised e, s) => (Raised e, s)
       | (Spinning, s) => (Spinning, s)
       end.

Notation "x <~ m ; k" := (jbind m (λ x, k))
  (at level 100, m at next level, right associativity).
Notation "m ;; k" := (jbind m (λ _, k))
  (at level 100, right associativity).

Definition modify {St : Type} (f : St → St) : job St unit :=
  λ s, (Ok tt, f s).

Definition get {St : Type} : job St St := λ s, (Ok s, s).

(** [for x in xs: body(x)] *)
Fixpoint for_each {St A : Type} (xs : list A) (body : A → job St unit)
    : job St unit :=
  match xs with
  | [] => ret tt
  | x :: rest => body x ;; for_each rest body
  end.

(** *** Channel operations of the worker *)

(** [self.stop_event.is_set()] *)
Definition stop_requested : job wstate bool :=
  λ w, let '(b, s) := is_set (w_stop w) in (Ok b, set_stop s w).

(** [self.inst.write(line)]; the caller has checked that [self.inst] is
    set, a missing session is the [AttributeError] of [None.write],
    rendered as a [RuntimeError]. *)
Definition inst_write (line : string) : job wstate unit :=
  λ w, match w_inst w with
       | None => (Raised (RuntimeError "NoneType has no attribute write"), w)
       | Some i =>
           match write i line with
           | (i, None) => (Ok tt, set_inst (Some i) w)
           | (i, Some status) => (Raised (VisaIOError status), set_inst (Some i) w)
           end
       end.

Definition inst_read : job wstate string :=
  λ w, match w_inst w with
       | None => (Raised (RuntimeError "NoneType has no attribute read"), w)
       | Some i =>
           match read i with
           | (i, inr text) => (Ok text, set_inst (Some i) w)
           | (i, inl status) => (Raised (VisaIOError status), set_inst (Some i) w)
           end
       end.

(** [self.inst.query(line)]: a write followed by a read. *)
Definition inst_query (line : string) : job wstate string :=
  inst_write line ;; inst_read.

(** [try: body except pyvisa.VisaIOError as error: handler(error)] *)
Definition on_visa_error {St A : Type} (body : job St A)
    (handler : visa_status → job St A) : job St A :=
  λ s, match body s with
       | (Raised (VisaIOError status), s) => handler status s
       | r => r
       end.

Section Builtins.

(** [float(text)], with [None] for its [ValueError], and [f"{x}"] of a
    float. *)
Variable py_float : string → option float.
Variable py_str : float → string.

Definition to_float {St : Type} (text : string) : job St float :=
  match py_float text with
  | Some x => ret x
  | None => raise (ValueError "could not convert string to float")
  end.

(** [_parse_measurement_line(line)] *)
Definition _parse_measurement_line (line : string) : option (float * float) :=
  let sanitized := py_strip (replace_char comma blank line) in
  match py_split sanitized with
  | index :: voltage :: current :: _ =>
      match py_float index, py_float voltage, py_float current with
      | Some _, Some voltage, Some current => Some (voltage, current)
      | _, _, _ => None
      end
  | _ => None
  end.

(** [_parse_printed_lines(lines)]: the loop over the lines, with its own
    copy of the parsing steps. *)
Definition _parse_printed_lines (lines : list string) : list (float * float) :=
  foldl
    (λ data line,
       let sanitized := py_strip (replace_char comma blank line) in
       let parts := py_split sanitized in
       if (length parts <? 3)%nat then data
       else
         match py_float (nth 0 parts EmptyString),
               py_float (nth 1 parts EmptyString),
               py_float (nth 2 parts EmptyString) with
         | Some _, Some voltage, Some current => data ++ [(voltage, current)]
         | _, _, _ => data
         end)
    [] lines.

(** [_fetch_buffer(accessor, count)] *)
Definition _fetch_buffer (accessor : string) (count : Z)
    : job wstate (list float) :=
  w <~ get ;
  match w_inst w with
  | None => ret []
  | Some _ =>
      if (count =? 0)%Z then ret []
      else
        response <~ on_visa_error
          (text <~ inst_query ("printbuffer(1, " +:+ pretty count +:+ ", "
                               +:+ accessor +:+ ")") ;
           ret (py_strip text))
          (λ status, raise (RuntimeError
                              ("Failed to fetch buffer data for " +:+ accessor
                               +:+ ": " +:+ visa_text status))) ;
        if truthy response then
          ret (omap (λ token,
                       let token := py_strip token in
                       if truthy token then py_float token else None)
                    (split_char comma (replace_char newline comma response)))
        else ret []
  end.

(** *** One segment *)

Definition marker_of (run_index segment_index : nat) : string :=
  "SWEEP_DONE_" +:+ pretty (run_index + 1) +:+ "_"
  +:+ pretty (segment_index + 1).

Definition run_command (params : sweep_params) (seg : segment) : string :=
  "IVMultiple_run(" +:+ py_str seg.1.1 +:+ ", " +:+ py_str seg.1.2 +:+ ", "
  +:+ py_str seg.2 +:+ ", " +:+ py_str (ilimit params) +:+ ", "
  +:+ py_str (nplc params) +:+ ", " +:+ py_str (settle params) +:+ ")".

(** [handle_point(voltage, current)], the closure of [_sweep_worker]. *)
Definition handle_point (command_levels : list float) (tolerance : float)
    (voltage current : float) (l : live) : live :=
  let commanded :=
    match command_levels !! command_index l with
    | Some level => level
    | None => voltage
    end in
  let voltages := run_voltages l ++ [voltage] in
  let currents := run_currents l ++ [current] in
  let commandeds := run_commanded l ++ [commanded] in
  let deviates := gt (py_abs (voltage - commanded)%float) tolerance in
  let entries :=
    update_current
      (λ entry,
         RunEntry (run_index entry) voltages currents commandeds
                  (printed_lines entry) (length currents) (color entry)
                  (if deviates then true else adjusted entry))
      (run_entries l) in
  post (UpdateLivePlot (_snapshot_entries entries))
       (Live (segment_voltages l) (segment_currents l) (command_index l + 1)
             voltages currents commandeds (run_lines l) entries (posted l)).

(** [handle_line(line)], the closure of [_perform_sweep]. *)
Definition handle_line (command_levels : list float) (tolerance : float)
    (line : string) (l : live) : cb_result live :=
  match _parse_measurement_line line with
  | None => Returned l
  | Some (voltage, current) =>
      let l := Live (segment_voltages l ++ [voltage])
                    (segment_currents l ++ [current]) (command_index l)
                    (run_voltages l) (run_currents l) (run_commanded l)
                    (run_lines l) (run_entries l) (posted l) in
      Returned (handle_point command_levels tolerance voltage current l)
  end.

(** [self._read_until_marker(marker, handle_line)] on the worker's state. *)
Definition drain (marker : string)
    (on_line : string → live → cb_result live) : job wstate (list string) :=
  λ w, let '(r, (i, stop, l)) :=
         _read_until_marker (w_inst w) (w_stop w) marker (Some on_line)
           (w_live w) in
       (r, WState i stop (w_script_loaded w) (w_color w) (w_log w) l).

Definition extend_run_lines (lines : list string) (l : live) : live :=
  Live (segment_voltages l) (segment_currents l) (command_index l)
       (run_voltages l) (run_currents l) (run_commanded l)
       (run_lines l ++ lines) (run_entries l) (posted l).

(** [_perform_sweep(...)]: the measured voltages and currents of the
    segment and the printed lines. *)
Definition _perform_sweep (params : sweep_params) (command_levels : list float)
    (tolerance : float) (run_idx segment_idx : nat) (seg : segment)
    : job wstate (list float * list float * list string) :=
  w <~ get ;
  match w_inst w with
  | None => raise (RuntimeError "Instrument not connected.")
  | Some _ =>
      inst_write (run_command params seg) ;;
      let marker := marker_of run_idx segment_idx in
      inst_write ("print('" +:+ marker +:+ "')") ;;
      modify (set_live (λ l,
        Live [] [] (command_index l) (run_voltages l) (run_currents l)
             (run_commanded l) (run_lines l) (run_entries l) (posted l))) ;;
      printed <~ drain marker (handle_line command_levels tolerance) ;
      modify (set_live (extend_run_lines printed)) ;;
      text <~ inst_query "print(defbuffer1.n)" ;
      count_float <~ to_float (py_strip text) ;
      point_count <~ (λ w, (py_int count_float, w)) ;
      voltages <~ _fetch_buffer "defbuffer1.sourcevalues" point_count ;
      currents <~ _fetch_buffer "defbuffer1" point_count ;
      let '(voltages, currents) :=
        if negb (Z.of_nat (length voltages) =? point_count)%Z
           || negb (Z.of_nat (length currents) =? point_count)%Z
        then match _parse_printed_lines printed with
             | [] => (voltages, currents)
             | parsed => (parsed.*1, parsed.*2)
             end
        else (voltages, currents) in
      let count := Nat.min (length voltages) (length currents) in
      ret (take count voltages, take count currents, printed)
  end.

(** The part of the segment loop's body that follows [_perform_sweep]. *)
Definition reconcile_segment (command_levels : list float) (tolerance : float)
    (run_idx segment_idx : nat) (seg : segment) (segment_start_idx : nat)
    (measured : list float * list float * list string) (l : live) : live :=
  let '(seg_voltages, seg_currents, seg_lines) := measured in
  let header :=
    "# Run " +:+ pretty (run_idx + 1) +:+ " segment "
    +:+ pretty (segment_idx + 1) +:+ ": " +:+ py_str seg.1.1 +:+ " -> "
    +:+ py_str seg.1.2 in
  let lines := run_lines l ++ [header] ++ seg_lines in
  let segment_end_idx := command_index l in
  let command_slice :=
    drop segment_start_idx (take segment_end_idx command_levels) in
  let '(commandeds, flagged) :=
    match seg_voltages with
    | [] => (run_commanded l, false)
    | _ :: _ =>
        match Reconciler._match_voltage_sequence command_slice seg_voltages with
        | [] => (run_commanded l, false)
        | corrected =>
            (take segment_start_idx (run_commanded l) ++ corrected
               ++ drop segment_end_idx (run_commanded l),
             existsb (λ p, gt (py_abs (p.1 - p.2)%float) tolerance)
                     (zip seg_voltages corrected))
        end
    end in
  let '(voltages, currents) :=
    match seg_voltages with
    | [] => (run_voltages l, run_currents l)
    | _ :: _ =>
        let seg_len := length seg_voltages in
        (take (length (run_voltages l) - seg_len) (run_voltages l)
           ++ seg_voltages,
         take (length (run_currents l) - seg_len) (run_currents l)
           ++ seg_currents)
    end in
  let entries :=
    update_current
      (λ entry,
         RunEntry (run_index entry) voltages currents commandeds lines
                  (length currents) (color entry)
                  (if flagged then true else adjusted entry))
      (run_entries l) in
  post (UpdateLivePlot (_snapshot_entries entries))
       (Live (segment_voltages l) (segment_currents l) (command_index l)
             voltages currents commandeds lines entries (posted l)).

(** The body of [for segment_index, segment in enumerate(segments)]. *)
Definition run_segment (params : sweep_params) (command_levels : list float)
    (tolerance : float) (run_idx : nat) (indexed : nat * segment)
    : job wstate unit :=
  let '(segment_idx, seg) := indexed in
  stop <~ stop_requested ;
  if stop : bool then raise (RuntimeError "Sweep cancelled.")
  else
    w <~ get ;
    let segment_start_idx := command_index (w_live w) in
    measured <~ _perform_sweep params command_levels tolerance run_idx
                  segment_idx seg ;
    modify (set_live (reconcile_segment command_levels tolerance run_idx
                        segment_idx seg segment_start_idx measured)).

(** The body of [for run_index in range(total_runs)]. *)
Definition run_once (params : sweep_params) (segments : list segment)
    (command_levels : list float) (tolerance : float) (run_idx : nat)
    : job wstate unit :=
  stop <~ stop_requested ;
  if stop : bool then raise (RuntimeError "Sweep cancelled.")
  else
    modify (λ w,
      let entry :=
        RunEntry (run_idx + 1) [] [] [] [] 0
                 (default ""%string
                    (RUN_COLORS !! (w_color w mod length RUN_COLORS)))
                 false in
      set_color (w_color w + 1)
        (set_live (λ l,
           Live (segment_voltages l) (segment_currents l) 0 [] [] [] []
                (run_entries l ++ [entry]) (posted l)) w)) ;;
    for_each (imap (λ i seg, (i, seg)) segments)
      (run_segment params command_levels tolerance run_idx).

(** *** Before the first run *)

(** The script file next to the program: its lines, or [None] when the
    file is missing. *)
Variable tsp_script : option (list string).

(** [ensure_script_loaded()] *)
Definition ensure_script_loaded : job wstate unit :=
  w <~ get ;
  match w_inst w with
  | None => raise (RuntimeError "Instrument not connected.")
  | Some _ =>
      if w_script_loaded w then ret tt
      else
        match tsp_script with
        | None => raise (FileNotFoundError "Cannot locate TSP script")
        | Some script_lines =>
            on_visa_error
              (inst_write "loadscript IVMultiple" ;;
               for_each script_lines inst_write ;;
               inst_write "function IVMultiple_run(start_v, stop_v, step_v, ilimit, nplc, settle_s)" ;;
               inst_write "    return iv_sweep_linear(start_v, stop_v, step_v, ilimit, nplc, settle_s)" ;;
               inst_write "end" ;;
               inst_write "endscript" ;;
               inst_write "IVMultiple()" ;;
               modify (set_script_loaded true) ;;
               modify (add_log "iv_multiple.tsp loaded."))
              (λ status,
                 modify (set_script_loaded false) ;;
                 raise (RuntimeError ("Failed to load TSP script: "
                                      +:+ visa_text status)))
        end
  end.

(** [_apply_wiring_mode()]; [wiring] is the text of [self.wiring_var]. *)
Definition _apply_wiring_mode (wiring : string) : job wstate unit :=
  w <~ get ;
  match w_inst w with
  | None => ret tt
  | Some _ =>
      let four_wire :=
        match wiring with
        | String c _ => Ascii.eqb c (Ascii.ascii_of_nat 52)
        | EmptyString => false
        end in
      on_visa_error
        (for_each
           ["pcall(function() smu.measure.terminals = smu.TERMINALS_FRONT end)";
            "pcall(function() smu.source.terminals = smu.TERMINALS_FRONT end)";
            if four_wire
            then "pcall(function() smu.measure.sense = smu.SENSE_4WIRE end)"
            else "pcall(function() smu.measure.sense = smu.SENSE_2WIRE end)"]%string
           inst_write)
        (λ status,
           raise (RuntimeError ("Failed to set " +:+ wiring +:+ " mode: "
                                +:+ visa_text status)))
  end.

(** *** The worker *)

(** The [try] block of [_sweep_worker]: [true] when it ran to its end,
    [false] when it left through one of its two early [return]s. *)
Definition worker_body (params : sweep_params) (total_runs : nat)
    (wiring : string) (segments : list segment) (command_levels : list float)
    (tolerance : float) : job wstate bool :=
  ensure_script_loaded ;;
  stop <~ stop_requested ;
  if stop : bool then ret false
  else
    _apply_wiring_mode wiring ;;
    stop <~ stop_requested ;
    if stop : bool then ret false
    else
      for_each (seq 0 total_runs)
        (run_once params segments command_levels tolerance) ;;
      ret true.

(** How the thread ends. *)
Inductive thread_end : Type :=
| Finished      (** the function returned *)
| Died (e : exn) (** an exception left the function *)
| StillPlanning (** the planner was cut short *).

(** [_sweep_worker(params, total_runs)].  The planner runs before the
    [try]: what it raises leaves the thread.  Whatever the [try] block
    raises is handed to [_on_sweep_failed]; a block that ran to its end
    hands the run entries to [_on_sweep_complete]. *)
Definition _sweep_worker (fuel : nat) (params : sweep_params)
    (total_runs : nat) (wiring : string) (w : wstate) : thread_end * wstate :=
  match _build_segments fuel params with
  | Spinning => (StillPlanning, w)
  | Raised e => (Died e, w)
  | Ok (segments, command_levels) =>
      let tolerance := py_max (py_abs (step_v params) * 0.02)%float 1e-6%float in
      let w := set_live (λ l,
                 Live (segment_voltages l) (segment_currents l)
                      (command_index l) (run_voltages l) (run_currents l)
                      (run_commanded l) (run_lines l) [] (posted l)) w in
      match worker_body params total_runs wiring segments command_levels
              tolerance w with
      | (Raised error, w) => (Finished, set_live (post (SweepFailed error)) w)
      | (Ok true, w) =>
          (Finished,
           set_live (λ l, post (SweepComplete (run_entries l)) l) w)
      | (Ok false, w) => (Finished, w)
      | (Spinning, w) => (StillPlanning, w)
      end
  end.

End Builtins.

End Sweep.

(** ** SessionArbiter: [TriggerReceiveGUI], [IntegratedIVSweepApp] and
       [ReceiveAndIVApp] *)

Module App.
Import PyFloat Py Visa Planner Sweep.

(** *** What the handlers do to the outside, in order *)

Inductive dialog : Type := ShowInfo | ShowWarning | ShowError.

(** The operations of the listener that the subclass guards. *)
Inductive listener_method : Type := StartWait | SetupTrigger | Disconnect.

Inductive event : Type :=
| Dialog (kind : dialog) (title message : string)
    (** a [messagebox] call *)
| FocusIVTab
| Attached (handle : nat)
    (** [iv_app.inst] is set to the listener's session *)
| Released
    (** [iv_app.inst] is cleared by [release_shared_instrument] *)
| Locked (locked : bool)
    (** [trigger_gui._instrument_locked] changes to [locked] *)
| SuperCall (method : listener_method)
    (** the method of the base class [ReceiveTriggerGUI] runs *)
| StopSet
| Joined
| ThreadStarted (params : sweep_params) (total_runs : nat)
    (** [self.sweep_thread.start()] *)
| Uncaught (e : exn)
    (** an exception leaves the handler *).

(** *** The listener *)

Record trigger_gui : Type := TriggerGui {
  tg_inst : option nat;
  tg_rm : option nat;
  tg_address : string;
  status_var : string;
  _instrument_locked : bool;
  _status_before_lock : option string
}.

(** *** The sweep window *)

Inductive thread : Type :=
| NoThread
| Alive (params : sweep_params) (total_runs : nat)
| Ended.

(** The entry fields. *)
Record form : Type := Form {
  address_var : string;
  start_var : string;
  stop_var : string;
  step_var : string;
  ilimit_var : string;
  nplc_var : string;
  settle_var : string;
  total_runs_var : string;
  wiring_var : string
}.

(** The buttons: [true] for [tk.NORMAL], [false] for [tk.DISABLED]. *)
Record buttons : Type := Buttons {
  run_button : bool;
  save_button : bool;
  connect_button : bool;
  disconnect_button : bool
}.

(** What the window keeps of the sweeps. *)
Record results : Type := Results {
  last_params : option sweep_params;
  corrected_voltages : list float;
  current_data : list (float * float);
  run_results : list run_entry;
  output_lines : list string
}.

Record iv_app : Type := IvApp {
  inst : option nat;
  rm : option nat;
  script_loaded : bool;
  using_shared_session : bool;
  sweep_thread : thread;
  stop_flag : bool;
  color_cursor : nat;
  fields : form;
  btns : buttons;
  data : results;
  log : list string
}.

(** The application: the two windows, the open VISA sessions by handle,
    and what the handlers did so far. *)
Record app : Type := AppState {
  trigger : trigger_gui;
  iv : iv_app;
  sessions : gmap nat instrument;
  trace : list event
}.

Definition emit (e : event) (a : app) : app :=
  AppState (trigger a) (iv a) (sessions a) (trace a ++ [e]).

Definition with_trigger (t : trigger_gui) (a : app) : app :=
  AppState t (iv a) (sessions a) (trace a).

Definition with_iv (i : iv_app) (a : app) : app :=
  AppState (trigger a) i (sessions a) (trace a).

Definition add_iv_log (line : string) (i : iv_app) : iv_app :=
  IvApp (inst i) (rm i) (script_loaded i) (using_shared_session i)
        (sweep_thread i) (stop_flag i) (color_cursor i) (fields i) (btns i)
        (data i) (log i ++ [line]).

Definition cleared (last : option sweep_params) : results :=
  Results last [] [] [] [].

(** *** [TriggerReceiveGUI] *)

Definition busy_message (action : string) : string :=
  "Cannot " +:+ action +:+ " while an I-V sweep is running.".

(** [_guard_if_locked(action)]: the answer and the dialog it shows. *)
Definition _guard_if_locked (action : string) (a : app) : bool * app :=
  if _instrument_locked (trigger a) then
    (false, emit (Dialog ShowInfo "Instrument Busy" (busy_message action)) a)
  else (true, a).

(** [set_instrument_lock(locked)] *)
Definition set_instrument_lock (locked : bool) (a : app) : app :=
  let t := trigger a in
  if Bool.eqb locked (_instrument_locked t) then a
  else
    let t :=
      if locked then
        TriggerGui (tg_inst t) (tg_rm t) (tg_address t)
                   "Instrument busy running I-V sweep." true
                   (Some (status_var t))
      else
        TriggerGui (tg_inst t) (tg_rm t) (tg_address t)
                   (match _status_before_lock t with
                    | Some (String c s) => String c s
                    | _ => "Trigger operations unlocked."
                    end)
                   false None in
    emit (Locked locked) (with_trigger t a).

(** The three guarded methods: the guard, then the base class. *)
Definition guarded (action : string) (method : listener_method) (a : app)
    : app :=
  let '(free, a) := _guard_if_locked action a in
  if negb free then a else emit (SuperCall method) a.

Definition start_wait : app → app := guarded "start a new wait" StartWait.
Definition setup_trigger : app → app :=
  guarded "configure the trigger" SetupTrigger.
Definition disconnect : app → app := guarded "disconnect" Disconnect.

(** *** [IntegratedIVSweepApp] *)

(** [is_sweep_running()] *)
Definition is_sweep_running (a : app) : bool :=
  match sweep_thread (iv a) with
  | Alive _ _ => true
  | _ => false
  end.

(** [attach_shared_instrument(instrument, resource_manager, address)] *)
Definition attach_shared_instrument (instrument : nat)
    (resource_manager : option nat) (address : string) (a : app)
    : result app :=
  if is_sweep_running a then
    Raised (RuntimeError
              "Cannot attach a new instrument while a sweep is running.")
  else
    let i := iv a in
    let f := fields i in
    let f :=
      if truthy address then
        Form address (start_var f) (stop_var f) (step_var f) (ilimit_var f)
             (nplc_var f) (settle_var f) (total_runs_var f) (wiring_var f)
      else f in
    let i :=
      IvApp (Some instrument) resource_manager false true (sweep_thread i)
            (stop_flag i) (color_cursor i) f
            (Buttons true (save_button (btns i)) false false) (data i)
            (log i
             ++ ["Using shared instrument session from the trigger window."]) in
    Ok (emit (Attached instrument) (with_iv i a)).

(** [release_shared_instrument()] *)
Definition release_shared_instrument (a : app) : app :=
  let i := iv a in
  if negb (using_shared_session i) then a
  else
    let i :=
      IvApp None None false false (sweep_thread i) (stop_flag i)
            (color_cursor i) (fields i) (Buttons false false true false)
            (data i)
            (log i ++ ["Releasing shared instrument session back to the trigger window."]) in
    emit Released (with_iv i a).

(** [_notify_run_state(running)], with [run_state_callback] set to
    [ReceiveAndIVApp._on_iv_run_state_changed]. *)
Definition _notify_run_state (running : bool) (a : app) : app :=
  set_instrument_lock running a.

(** [IVSweepApp._update_live_plot(entries)] *)
Definition _update_live_plot (entries : list run_entry) (a : app) : app :=
  let i := iv a in
  let d := data i in
  let corrected :=
    match last entries with
    | Some entry => Sweep.corrected_voltages entry
    | None => []
    end in
  let pairs :=
    match last entries with
    | Some entry => zip corrected (currents entry)
    | None => []
    end in
  with_iv (IvApp (inst i) (rm i) (script_loaded i) (using_shared_session i)
                 (sweep_thread i) (stop_flag i) (color_cursor i) (fields i)
                 (btns i)
                 (Results (last_params d) corrected pairs entries
                          (output_lines d))
                 (log i)) a.

(** The lines [_on_sweep_complete] logs for one entry. *)
Definition entry_log (entry : run_entry) : list string :=
  ["Run " +:+ pretty (run_index entry) +:+ ": Received "
   +:+ pretty (point_count entry) +:+ " points."]
  ++ (if adjusted entry then
        ["Run " +:+ pretty (run_index entry)
         +:+ ": Applied commanded voltage levels after current limit."]
      else [])
  ++ printed_lines entry.

(** [IVSweepApp._on_sweep_complete(entries)] *)
Definition base_on_sweep_complete (entries : list run_entry) (a : app) : app :=
  let a := _update_live_plot entries a in
  let i := iv a in
  let d := data i in
  let b := btns i in
  match last entries with
  | Some final =>
      with_iv (IvApp (inst i) (rm i) (script_loaded i)
                     (using_shared_session i) (sweep_thread i) (stop_flag i)
                     (color_cursor i) (fields i)
                     (Buttons true true (connect_button b)
                              (disconnect_button b))
                     (Results (last_params d) (corrected_voltages d)
                              (current_data d) (run_results d)
                              (printed_lines final))
                     (log i
                      ++ ["Sense mode: " +:+ wiring_var (fields i)]
                      ++ concat (entry_log <$> entries)
                      ++ ["Sweep finished."])) a
  | None =>
      with_iv (IvApp (inst i) (rm i) (script_loaded i)
                     (using_shared_session i) (sweep_thread i) (stop_flag i)
                     (color_cursor i) (fields i)
                     (Buttons true false (connect_button b)
                              (disconnect_button b))
                     (Results (last_params d) [] [] [] (output_lines d))
                     (log i
                      ++ ["Sweep finished but no data was returned."])) a
  end.

(** [IVSweepApp._on_sweep_failed(error)] *)
Definition base_on_sweep_failed (error : exn) (a : app) : app :=
  let a := emit (Dialog ShowError "Sweep" (exn_text error)) a in
  let i := iv a in
  let b := btns i in
  with_iv (IvApp (inst i) (rm i) (script_loaded i) (using_shared_session i)
                 (sweep_thread i) (stop_flag i) (color_cursor i) (fields i)
                 (Buttons true false (connect_button b) (disconnect_button b))
                 (cleared (last_params (data i)))
                 (log i ++ ["Sweep failed: " +:+ exn_text error])) a.

(** [IntegratedIVSweepApp._on_sweep_complete(entries)] *)
Definition _on_sweep_complete (entries : list run_entry) (a : app) : app :=
  let a := base_on_sweep_complete entries a in
  let a := _notify_run_state false a in
  if using_shared_session (iv a) then release_shared_instrument a else a.

(** [IntegratedIVSweepApp._on_sweep_failed(error)] *)
Definition _on_sweep_failed (error : exn) (a : app) : app :=
  let a := base_on_sweep_failed error a in
  let a := _notify_run_state false a in
  if using_shared_session (iv a) then release_shared_instrument a else a.


Section Builtins.

Variable py_float : string → option float.
Variable py_str : float → string.
Variable tsp_script : option (list string).

(** [parse_float(value, label)] of [_collect_parameters] *)
Definition parse_float (value label : string) : result float :=
  match py_float value with
  | Some x => Ok x
  | None => Raised (ValueError (label +:+ " must be a number."))
  end.

(** [_collect_parameters()] *)
Definition _collect_parameters (f : form) : result (sweep_params * nat) :=
  start_v <- parse_float (start_var f) "Start voltage" ;;
  stop_v <- parse_float (stop_var f) "Stop voltage" ;;
  step_v <- parse_float (step_var f) "Step voltage" ;;
  if PrimFloat.eqb step_v 0%float then
    Raised (ValueError zero_step_message)
  else
    ilimit <- parse_float (ilimit_var f) "Compliance current" ;;
    nplc <- parse_float (nplc_var f) "NPLC" ;;
    settle <- parse_float (settle_var f) "Settle time" ;;
    let total_runs_value := py_strip (total_runs_var f) in
    if negb (truthy total_runs_value) then
      Raised (ValueError "Total runs must be provided.")
    else
      match py_float total_runs_value with
      | None => Raised (ValueError "Total runs must be an integer.")
      | Some total_runs_float =>
          if negb (is_integer total_runs_float) then
            Raised (ValueError "Total runs must be an integer.")
          else
            total_runs <- py_int total_runs_float ;;
            if (total_runs <? 1)%Z then
              Raised (ValueError "Total runs must be at least 1.")
            else
              Ok (SweepParams start_v stop_v step_v (py_abs ilimit)
                    (py_max nplc 0.001%float) (py_max settle 0%float),
                  Z.to_nat total_runs)
      end.

(** [IVSweepApp.start_sweep()] *)
Definition base_start_sweep (a : app) : app :=
  match inst (iv a) with
  | None =>
      emit (Dialog ShowError "Instrument" "Connect to the instrument first.") a
  | Some _ =>
      match _collect_parameters (fields (iv a)) with
      | Raised error => emit (Dialog ShowError "Parameters" (exn_text error)) a
      | Spinning => a
      | Ok (sweep_params, total_runs) =>
          let i := iv a in
          let b := btns i in
          let i :=
            IvApp (inst i) (rm i) (script_loaded i) (using_shared_session i)
                  (sweep_thread i) (stop_flag i) 0 (fields i)
                  (Buttons false false (connect_button b)
                           (disconnect_button b))
                  (cleared (Some sweep_params))
                  (log i ++ ["Starting sweep..."]) in
          let a := with_iv i a in
          let a :=
            if is_sweep_running a then emit Joined (emit StopSet a) else a in
          let i := iv a in
          let i :=
            IvApp (inst i) (rm i) (script_loaded i) (using_shared_session i)
                  (Alive sweep_params total_runs) false (color_cursor i)
                  (fields i) (btns i) (data i) (log i) in
          emit (ThreadStarted sweep_params total_runs) (with_iv i a)
      end
  end.

(** [IntegratedIVSweepApp.start_sweep()] *)
Definition start_sweep (a : app) : app :=
  let a := base_start_sweep a in
  if is_sweep_running a then _notify_run_state true a else a.

(** *** [ReceiveAndIVApp] *)

(** [_handle_trigger()] *)
Definition _handle_trigger (a : app) : app :=
  if is_sweep_running a then
    emit (Dialog ShowInfo "Trigger"
            "An I-V sweep is already running. The new trigger is ignored.") a
  else
    match tg_inst (trigger a) with
    | None =>
        emit (Dialog ShowWarning "Trigger"
                "Trigger detected but the instrument is disconnected. Connect and wait again.")
             a
    | Some instrument =>
        let a := emit FocusIVTab a in
        match attach_shared_instrument instrument (tg_rm (trigger a))
                (tg_address (trigger a)) a with
        | Raised e => emit (Uncaught e) a
        | Spinning => a
        | Ok a =>
            let a := set_instrument_lock true a in
            let a := start_sweep a in
            if negb (is_sweep_running a) then
              set_instrument_lock false (release_shared_instrument a)
            else a
        end
    end.

(** *** The worker thread and the event loop *)


End Builtins.

(** *** A session that breaks *)

(** The listener is connected to session 7 and idle, the sweep window is
    idle with the default form. *)
Definition default_form : form :=
  Form "TCPIP0::169.254.188.69::5025::SOCKET" "-4.0" "4.0" "0.1" "0.5" "1"
       "0.01" "1" "4-wire".

Definition idle_iv : iv_app :=
  IvApp None None false false NoThread false 0 default_form
        (Buttons false false true false) (Results None [] [] [] []) [].

Definition connected_listener : trigger_gui :=
  TriggerGui (Some 7) (Some 1) "TCPIP0::169.254.188.69::5025::SOCKET"
             "Trigger received." false None.

(** The instrument answers the first segment with one point and then the
    link fails. *)
Definition breaking_session : instrument :=
  Instrument [Line "1, 0, 1e-9"; Fault VI_ERROR_CONN_LOST] [] None.

Definition triggered_app : app :=
  AppState connected_listener idle_iv {[ 7 := breaking_session ]} [].

(** The same form with a step of zero. *)
Definition zero_step_form : form :=
  Form "TCPIP0::169.254.188.69::5025::SOCKET" "-4.0" "4.0" "0" "0.5" "1"
       "0.01" "1" "4-wire".

(** The sweep window on its own, connected to session 7. *)
Definition zero_step_app : app :=
  AppState (TriggerGui None None "" "Disconnected" false None)
           (IvApp (Some 7) (Some 1) false false NoThread false 0
                  zero_step_form (Buttons true false false true)
                  (Results None [] [] [] []) [])
           {[ 7 := Instrument [] [] None ]} [].

(** [float(text)] for the texts of this scenario. *)
Definition scenario_float (text : string) : option float :=
  if String.eqb text "-4.0" then Some (-4)%float
  else if String.eqb text "4.0" then Some 4%float
  else if String.eqb text "0.1" then Some 0.1%float
  else if String.eqb text "0.5" then Some 0.5%float
  else if String.eqb text "1" then Some 1%float
  else if String.eqb text "0.01" then Some 0.01%float
  else if String.eqb text "0" then Some 0%float
  else if String.eqb text "1e-9" then Some 1e-9%float
  else None.

(** [f"{x}"] for the floats of this scenario. *)
Definition scenario_str (x : float) : string :=
  if PrimFloat.eqb x 0%float then "0.0"
  else if PrimFloat.eqb x 4%float then "4.0"
  else if PrimFloat.eqb x (-4)%float then "-4.0"
  else if PrimFloat.eqb x 0.1%float then "0.1"
  else if PrimFloat.eqb x (-0.1)%float then "-0.1"
  else if PrimFloat.eqb x 0.5%float then "0.5"
  else if PrimFloat.eqb x 1%float then "1.0"
  else if PrimFloat.eqb x 0.01%float then "0.01"
  else "?".

(** The application once the trigger has been handled: the sweep runs on
    the listener's session. *)
Definition sweeping_app : app := _handle_trigger scenario_float triggered_app.

End App.

(** ** Sample inputs *)

Module Samples.
Import Py Visa Planner Sweep App.

(** The default sweep with a step of negative zero. *)
Definition zero_step_params : sweep_params :=
  SweepParams (-4) 4 (-0) 0.5 1 0.01.


(** A worker state on an open session that nothing was written to. *)
Definition fresh_worker : wstate :=
  WState (Some (Instrument [] [] None)) None false 0 []
         (Live [] [] 0 [] [] [] [] [] []).

(** The same worker with the stop event set. *)
Definition cancelled_worker : wstate :=
  WState (Some (Instrument [] [] None)) (Some 0) false 0 []
         (Live [] [] 0 [] [] [] [] [] []).

(** A session that answers one segment: one point, the marker of the
    first segment of the first run, the number of points in the buffer,
    the source values and the readings. *)
Definition one_point_session : instrument :=
  Instrument [Line "1, 0, 1e-9"; Line "SWEEP_DONE_1_1"; Line "1"; Line "0";
              Line "1e-9"] [] None.

Definition measuring_worker : wstate :=
  WState (Some one_point_session) None true 0 []
         (Live [] [] 0 [] [] [] [] [] []).




(** A script of two lines. *)
Definition short_script : list string := ["-- iv_multiple"; "reset()"].

End Samples.

(** ** Closing the sweep window: [disconnect_instrument] and
       [_stop_and_cleanup] *)

Module Closing.
Import Py Visa Planner Sweep App.

(** [IVSweepApp.disconnect_instrument()].  Closing a session takes it out
    of the open sessions; [close()] is taken to return. *)
Definition base_disconnect_instrument (a : app) : app :=
  let i := iv a in
  let open :=
    match inst i with
    | Some handle => delete handle (sessions a)
    | None => sessions a
    end in
  let i :=
    IvApp None None false (using_shared_session i) (sweep_thread i)
          (stop_flag i) 0 (fields i) (Buttons false false true false)
          (cleared None) (log i ++ ["Disconnected."]) in
  AppState (trigger a) i open (trace a).

(** [IntegratedIVSweepApp.disconnect_instrument()] *)
Definition disconnect_instrument (a : app) : app :=
  if using_shared_session (iv a) then
    with_iv (add_iv_log
               "Instrument session is owned by the trigger window; disconnect skipped."
               (iv a)) a
  else base_disconnect_instrument a.

(** [IntegratedIVSweepApp._stop_and_cleanup(destroy_plot)]; the figure is
    not part of the state. *)
Definition _stop_and_cleanup (a : app) : app :=
  let i := iv a in
  let a :=
    emit StopSet
      (with_iv (IvApp (inst i) (rm i) (script_loaded i)
                      (using_shared_session i) (sweep_thread i) true
                      (color_cursor i) (fields i) (btns i) (data i) (log i))
               a) in
  let a := if is_sweep_running a then emit Joined a else a in
  let a :=
    if using_shared_session (iv a) then release_shared_instrument a
    else base_disconnect_instrument a in
  _notify_run_state false a.

End Closing.

(** * Properties *)

(** ** Facts about the float primitives *)

Module PyFloatFacts.
Import PyFloat.

(** The floats that compare equal to zero are the two zeros. *)
Lemma eqb_zero_inv (x : float) :
  PrimFloat.eqb x 0%float = true → x = 0%float ∨ x = (-0)%float.
Proof.
  intros H. rewrite FloatAxioms.eqb_spec in H.
  change (Prim2SF 0) with (S754_zero false) in H.
  rewrite <- (SF2Prim_Prim2SF x).
  destruct (Prim2SF x) as [s|s| |s m e]; try (destruct s; discriminate).
  - destruct s; [right | left]; reflexivity.
  - discriminate.
Qed.

End PyFloatFacts.

(** ** VoltageReconciler *)

Module ReconcilerFacts.
Import PyFloat Reconciler.

Section Scan.
Variable tol : float.
Variables expected actual : list float.

Lemma scan_S (n : nat) :
  scan tol expected actual (S n)
  = scan_step tol expected actual (scan tol expected actual n) n.
Proof. unfold scan. rewrite seq_S, foldl_app. reflexivity. Qed.

(** What the loop has built after [n] turns. *)
Definition scan_state_ok (n : nat) (st : list float * option nat) : Prop :=
  match st.2 with
  | None =>
      st.1 = take n actual
      ∧ ∀ j, j < n → deviates tol expected actual j = false
  | Some k =>
      k < n
      ∧ deviates tol expected actual k = true
      ∧ (∀ j, j < k → deviates tol expected actual j = false)
      ∧ st.1 = take k actual ++ drop k (take n expected)
  end.

Lemma scan_invariant (n : nat) :
  n ≤ Nat.min (length expected) (length actual) →
  scan_state_ok n (scan tol expected actual n).
Proof.
  induction n as [|n IH]; intros Hn.
  - unfold scan, scan_state_ok; simpl. split; [by rewrite take_0 | lia].
  - rewrite scan_S.
    assert (He : n < length expected) by lia.
    assert (Ha : n < length actual) by lia.
    destruct (lookup_lt_is_Some_2 _ _ He) as [e Ee].
    destruct (lookup_lt_is_Some_2 _ _ Ha) as [a Ea].
    specialize (IH ltac:(lia)).
    destruct (scan tol expected actual n) as [m s].
    unfold scan_state_ok in IH; simpl in IH.
    unfold scan_step; rewrite Ee, Ea; simpl.
    destruct s as [k|].
    + destruct IH as (Hk & Hd & Hb & ->).
      unfold scan_state_ok; simpl. repeat split; [lia | done | done |].
      rewrite (take_S_r _ _ _ Ee), drop_app_le by (rewrite length_take; lia).
      by rewrite app_assoc.
    + destruct IH as (-> & Hb).
      assert (Hdev : deviates tol expected actual n
                     = gt (py_abs (e - a)%float) tol)
        by (unfold deviates; by rewrite Ee, Ea).
      destruct (gt (py_abs (e - a)%float) tol) eqn:Hg;
        unfold scan_state_ok; simpl.
      * repeat split; [lia | done | done |].
        rewrite (take_S_r _ _ _ Ee), drop_app_length'; [done|].
        rewrite length_take; lia.
      * split; [by rewrite (take_S_r _ _ _ Ea) |].
        intros j Hj. destruct (decide (j = n)) as [->|]; [done|].
        apply Hb; lia.
Qed.

End Scan.

(** With either list empty the function hands [actual] back. *)
Lemma match_voltage_sequence_unfold (expected actual : list float) :
  let length := Nat.min (length expected) (length actual) in
  _match_voltage_sequence expected actual
  = match expected, actual with
    | [], _ | _, [] => actual
    | _, _ =>
        (scan (tolerance expected actual) expected actual length).1
        ++ drop length actual
    end.
Proof.
  destruct expected as [|e es], actual as [|a acts]; try reflexivity.
  unfold _match_voltage_sequence, tolerance.
  set (len := Nat.min _ _).
  destruct (len <? _)%nat eqn:Hlt; [reflexivity|].
  apply Nat.ltb_ge in Hlt.
  rewrite drop_ge, app_nil_r by lia. reflexivity.
Qed.

Lemma first_deviation_unique (tol : float) (expected actual : list float)
    (k k' : nat) :
  first_deviation tol expected actual k →
  first_deviation tol expected actual k' → k = k'.
Proof.
  intros (_ & Hd & Hb) (_ & Hd' & Hb').
  destruct (Nat.lt_trichotomy k k') as [Hlt|[->|Hlt]]; [|done|].
  - rewrite (Hb' _ Hlt) in Hd. discriminate.
  - rewrite (Hb _ Hlt) in Hd'. discriminate.
Qed.

(** The result when the first deviation is at [k]. *)
Lemma match_voltage_sequence_stuck (expected actual : list float) (k : nat) :
  first_deviation (tolerance expected actual) expected actual k →
  _match_voltage_sequence expected actual
  = take k actual
    ++ drop k (take (Nat.min (length expected) (length actual)) expected)
    ++ drop (Nat.min (length expected) (length actual)) actual.
Proof.
  intros Hk. pose proof Hk as (Hlt & Hd & Hb).
  rewrite match_voltage_sequence_unfold.
  destruct expected as [|e es]; [simpl in Hlt; lia|].
  destruct actual as [|a acts]; [simpl in Hlt; lia|].
  set (len := Nat.min _ _) in *.
  pose proof (scan_invariant (tolerance (e :: es) (a :: acts))
                (e :: es) (a :: acts) len ltac:(lia)) as Hinv.
  destruct (scan _ _ _ len) as [m s]. unfold scan_state_ok in Hinv.
  cbn [fst snd] in Hinv |- *. destruct s as [k'|].
  - destruct Hinv as (Hk' & Hd' & Hb' & ->).
    assert (k = k') as <-
      by (eapply first_deviation_unique; [exact Hk | by repeat split]).
    by rewrite <- app_assoc.
  - destruct Hinv as (_ & Hnone). rewrite (Hnone k Hlt) in Hd. discriminate.
Qed.

(** The result when no compared index deviates. *)
Lemma match_voltage_sequence_clean (expected actual : list float) :
  (∀ j, j < Nat.min (length expected) (length actual) →
        deviates (tolerance expected actual) expected actual j = false) →
  _match_voltage_sequence expected actual = actual.
Proof.
  intros Hnone. rewrite match_voltage_sequence_unfold.
  destruct expected as [|e es]; [done|].
  destruct actual as [|a acts]; [done|].
  set (len := Nat.min _ _) in *.
  pose proof (scan_invariant (tolerance (e :: es) (a :: acts))
                (e :: es) (a :: acts) len ltac:(lia)) as Hinv.
  destruct (scan _ _ _ len) as [m s]. unfold scan_state_ok in Hinv.
  cbn [fst snd] in Hinv |- *. destruct s as [k'|].
  - destruct Hinv as (Hk' & Hd' & _). rewrite (Hnone k' Hk') in Hd'.
    discriminate.
  - destruct Hinv as (-> & _). apply take_drop.
Qed.

Lemma sticky_from_layout (k : nat) (commanded measured result : list float) :
  k < Nat.min (length commanded) (length measured) →
  result
  = take k measured
    ++ drop k (take (Nat.min (length commanded) (length measured)) commanded)
    ++ drop (Nat.min (length commanded) (length measured)) measured →
  sticky_from k commanded measured result.
Proof.
  intros Hk -> i. set (len := Nat.min _ _) in *.
  assert (Htk : length (take k measured) = k) by (rewrite length_take; lia).
  assert (Hmid : length (drop k (take len commanded)) = len - k)
    by (rewrite length_drop, length_take; lia).
  split; [|split].
  - intros Hi. rewrite lookup_app_l by lia. by apply lookup_take_lt.
  - intros [Hki Hil]. rewrite lookup_app_r by lia.
    rewrite lookup_app_l by lia. rewrite Htk, lookup_drop.
    replace (k + (i - k)) with i by lia. by apply lookup_take_lt.
  - intros Hi. rewrite lookup_app_r by lia. rewrite lookup_app_r by lia.
    rewrite Htk, Hmid, lookup_drop. f_equal. lia.
Qed.

(** The specification's worked example. *)
Definition example_commanded : list float := [0; 1; 2; 3; 4]%float.
Definition example_measured : list float := [0; 1; 2; 2; 2]%float.

(** C1 (as amended).  With [length] the smaller of the two lengths and the
    tolerance the function computes ([max(base_step * 0.02, 1e-6)], where
    [base_step] is the least difference between consecutive commanded levels
    among the first [length] ones that [math.isclose] does not take for
    equal, and 0.0 when there is none): when [k] is the first index below
    [length] whose commanded and measured values differ by more than the
    tolerance, the result keeps [measured] below [k], holds [commanded] from
    [k] up to [length], and keeps [measured] from [length] on; when no index
    deviates the result is [measured]; and commanded [0,1,2,3,4] against
    measured [0,1,2,2,2] gives [0,1,2,3,4]. *)
Theorem match_voltage_sequence_sticky (expected actual : list float) :
  (∀ k, first_deviation (tolerance expected actual) expected actual k →
        sticky_from k expected actual (_match_voltage_sequence expected actual))
  ∧ ((∀ j, j < Nat.min (length expected) (length actual) →
           deviates (tolerance expected actual) expected actual j = false) →
     _match_voltage_sequence expected actual = actual)
  ∧ _match_voltage_sequence example_commanded example_measured
    = example_commanded.
Proof.
  split; [|split].
  - intros k Hk. apply sticky_from_layout; [apply Hk|].
    by apply match_voltage_sequence_stuck.
  - apply match_voltage_sequence_clean.
  - vm_compute. reflexivity.
Qed.

(** The worked example: the first deviation is at index 3. *)
Lemma match_voltage_sequence_sticky_witness :
  first_deviation (tolerance example_commanded example_measured)
    example_commanded example_measured 3
  ∧ sticky_from 3 example_commanded example_measured
      (_match_voltage_sequence example_commanded example_measured).
Proof.
  assert (Hfirst : first_deviation
                     (tolerance example_commanded example_measured)
                     example_commanded example_measured 3).
  { split; [simpl; lia|]. split; [vm_compute; reflexivity|].
    intros j Hj.
    destruct j as [|[|[|j]]]; [vm_compute; reflexivity .. | lia]. }
  split; [exact Hfirst|].
  exact (proj1 (match_voltage_sequence_sticky example_commanded example_measured)
           3 Hfirst).
Defined.

(** *** The claim as the specification words it *)

(** The sticky rule with the tolerance taken from the specification's
    [baseStep]: the least non-zero difference between consecutive commanded
    levels. *)
Definition sticky_as_specified (commanded measured : list float) : Prop :=
  ∀ k, first_deviation (spec_tolerance commanded) commanded measured k →
       sticky_from k commanded measured
         (_match_voltage_sequence commanded measured).

(** A commanded ladder whose second level is 1e-13 above the first and
    which has one more level than was measured. *)
Definition fine_commanded : list float := [0; 1e-13; 1; 1.5]%float.
Definition fine_measured : list float := [0; 1e-13; 1.015]%float.

(** The specification's [baseStep] is there 1e-13, so its tolerance is 1e-6
    and index 2 (off by 0.015) deviates: the result should hold the
    commanded 1.0.  The function leaves the 1e-13 step out as
    indistinguishable from zero and works with tolerance 0.02, so it returns
    the measured 1.015. *)
Lemma sticky_as_specified_fails :
  ¬ sticky_as_specified fine_commanded fine_measured.
Proof.
  intros H. specialize (H 2).
  assert (Hfirst : first_deviation (spec_tolerance fine_commanded)
                     fine_commanded fine_measured 2).
  { split; [simpl; lia|]. split; [vm_compute; reflexivity|].
    intros j Hj. destruct j as [|[|j]]; [vm_compute; reflexivity .. | lia]. }
  destruct (H Hfirst 2) as (_ & Hmid & _).
  specialize (Hmid ltac:(simpl; lia)).
  apply (f_equal (λ o, match o with
                       | Some x => PrimFloat.eqb x 1%float
                       | None => false
                       end)) in Hmid.
  vm_compute in Hmid. discriminate.
Qed.

(** The same input under the other two readings of [baseStep] (differences
    over the compared prefix only, or "non-zero" as [math.isclose] has it)
    still asks for a tolerance below the 0.015 deviation. *)
Lemma fine_tolerances :
  spec_tolerance fine_commanded = 9.9999999999999995e-07%float
  ∧ spec_tolerance (take 3 fine_commanded) = 9.9999999999999995e-07%float
  ∧ tolerance_of fine_commanded 4 = 0.01%float
  ∧ tolerance fine_commanded fine_measured = 0.019999999999997999%float.
Proof. vm_compute. repeat split; reflexivity. Qed.

End ReconcilerFacts.

(** ** SegmentPlanner *)

Module PlannerFacts.
Import PyFloat Py Planner.

(** *** More loop turns never change a finished run *)

Lemma ladder_loop_more_fuel (n m : nat) (epsilon stop seg_step : float)
    (direction : Z) (current : float) (levels : list float) :
  n ≤ m →
  ladder_loop n epsilon stop seg_step direction current levels ≠ Spinning →
  ladder_loop m epsilon stop seg_step direction current levels
  = ladder_loop n epsilon stop seg_step direction current levels.
Proof.
  revert m current levels.
  induction n as [|n IH]; intros m current levels Hle Hdone; [done|].
  destruct m as [|m]; [lia|].
  simpl in Hdone |- *.
  destruct (math_isclose _ current epsilon) as [[|]| |]; simpl in *; try done.
  destruct (math_isclose _ stop epsilon) as [[|]| |]; simpl in *; try done.
  apply IH; [lia | done].
Qed.

Lemma generate_segment_levels_more_fuel (n m : nat)
    (epsilon start stop seg_step : float) :
  n ≤ m →
  generate_segment_levels n epsilon start stop seg_step ≠ Spinning →
  generate_segment_levels m epsilon start stop seg_step
  = generate_segment_levels n epsilon start stop seg_step.
Proof.
  unfold generate_segment_levels. intros Hle Hdone.
  destruct (math_isclose seg_step 0 epsilon) as [[|]| |]; simpl in *; try done.
  by apply ladder_loop_more_fuel.
Qed.

Lemma append_segment_more_fuel (n m : nat) (epsilon step_mag : float)
    (st : list segment * list float) (start stop : float) :
  n ≤ m →
  append_segment n epsilon step_mag st start stop ≠ Spinning →
  append_segment m epsilon step_mag st start stop
  = append_segment n epsilon step_mag st start stop.
Proof.
  unfold append_segment. intros Hle Hdone.
  destruct (math_isclose start stop epsilon) as [[|]| |]; simpl in *; try done.
  rewrite (generate_segment_levels_more_fuel n m) by
    (try done; intros E; by rewrite E in Hdone).
  done.
Qed.

Lemma bind_not_spinning {A B : Type} (m : result A) (k : A → result B) :
  bind m k ≠ Spinning → m ≠ Spinning.
Proof. by destruct m. Qed.

Lemma build_segments_more_fuel (n m : nat) (params : sweep_params) :
  n ≤ m →
  _build_segments n params ≠ Spinning →
  _build_segments m params = _build_segments n params.
Proof.
  unfold _build_segments. intros Hle Hdone.
  destruct (math_isclose _ 0 1e-15) as [[|]| |]; simpl in *; try done.
  set (eps := epsilon_of _) in *. set (mag := py_abs _) in *.
  assert (Hpos :
    (if gt (py_max3 (start_v params) (stop_v params) 0) eps
     then st <- append_segment m eps mag ([], []) 0
                   (py_max3 (start_v params) (stop_v params) 0) ;;
          append_segment m eps mag st
            (py_max3 (start_v params) (stop_v params) 0) 0
     else Ok ([], []))
    = (if gt (py_max3 (start_v params) (stop_v params) 0) eps
       then st <- append_segment n eps mag ([], []) 0
                     (py_max3 (start_v params) (stop_v params) 0) ;;
            append_segment n eps mag st
              (py_max3 (start_v params) (stop_v params) 0) 0
       else Ok ([], []))).
  { apply bind_not_spinning in Hdone.
    destruct (gt _ eps); [|done].
    pose proof (bind_not_spinning _ _ Hdone) as H1.
    rewrite (append_segment_more_fuel n m) by done.
    destruct (append_segment n eps mag ([], []) 0 _) as [st1| |];
      simpl in *; try done.
    by apply append_segment_more_fuel. }
  rewrite Hpos. clear Hpos.
  destruct (if gt _ eps then _ else _) as [st1| |]; simpl in *; try done.
  assert (Hneg :
    (if lt (py_min3 (start_v params) (stop_v params) 0) (- eps)
     then st <- append_segment m eps mag st1 0
                   (py_min3 (start_v params) (stop_v params) 0) ;;
          append_segment m eps mag st
            (py_min3 (start_v params) (stop_v params) 0) 0
     else Ok st1)
    = (if lt (py_min3 (start_v params) (stop_v params) 0) (- eps)
       then st <- append_segment n eps mag st1 0
                     (py_min3 (start_v params) (stop_v params) 0) ;;
            append_segment n eps mag st
              (py_min3 (start_v params) (stop_v params) 0) 0
       else Ok st1)).
  { apply bind_not_spinning in Hdone.
    destruct (lt _ (- eps)); [|done].
    pose proof (bind_not_spinning _ _ Hdone) as H1.
    rewrite (append_segment_more_fuel n m) by done.
    destruct (append_segment n eps mag st1 0 _) as [st2| |];
      simpl in *; try done.
    by apply append_segment_more_fuel. }
  rewrite Hneg. clear Hneg.
  destruct (if lt _ (- eps) then _ else _) as [st2| |]; simpl in *; try done.
  destruct st2 as [[|seg segs] path]; simpl in *; [|done].
  rewrite (generate_segment_levels_more_fuel n m); [done | done |].
  intros E. by rewrite E in Hdone.
Qed.

(** *** The default sweep *)

Lemma default_plan_at_40 :
  ∃ path,
    _build_segments 40 default_params = Ok (default_segments, path)
    ∧ length path = 164
    ∧ last path = Some 2.4147350785597155e-15%float.
Proof. eexists. vm_compute. repeat split; reflexivity. Qed.

Lemma default_ladders_at_40 :
  Forall (λ seg, ∃ levels,
            segment_ladder 40 (epsilon_of 0.1) seg = Ok levels
            ∧ length levels = 41)
         default_segments.
Proof.
  repeat constructor; eexists; (split; [vm_compute; reflexivity | reflexivity]).
Qed.

(** C4.  For start -4.0, stop 4.0, step 0.1 the planner returns, as soon
    as it is given the 40 loop turns a ladder needs, exactly the four
    segments 0->4, 4->0, 0->-4, -4->0 in that order; each segment's ladder
    has 41 levels and the commanded path has 164. *)
Theorem default_sweep_plan (fuel : nat) :
  40 ≤ fuel →
  ∃ path,
    _build_segments fuel default_params = Ok (default_segments, path)
    ∧ length path = 164
    ∧ Forall (λ seg, ∃ levels,
                segment_ladder fuel (epsilon_of (py_abs (step_v default_params)))
                  seg = Ok levels
                ∧ length levels = 41)
             default_segments.
Proof.
  intros Hfuel.
  destruct default_plan_at_40 as (path & Hplan & Hlen & _).
  exists path. split; [|split; [exact Hlen|]].
  - rewrite (build_segments_more_fuel 40 fuel);
      [exact Hplan | exact Hfuel | rewrite Hplan; discriminate].
  - eapply Forall_impl; [exact default_ladders_at_40|].
    intros seg (levels & Hl & Hn). exists levels. split; [|exact Hn].
    unfold segment_ladder in *.
    change (epsilon_of (py_abs (step_v default_params))) with (epsilon_of 0.1).
    rewrite (generate_segment_levels_more_fuel 40 fuel);
      [exact Hl | exact Hfuel | rewrite Hl; discriminate].
Qed.

Lemma default_sweep_plan_witness :
  40 ≤ 64
  ∧ ∃ path,
      _build_segments 64 default_params = Ok (default_segments, path)
      ∧ length path = 164
      ∧ Forall (λ seg, ∃ levels,
                  segment_ladder 64
                    (epsilon_of (py_abs (step_v default_params))) seg
                  = Ok levels
                  ∧ length levels = 41)
               default_segments.
Proof. split; [lia | apply (default_sweep_plan 64); lia]. Defined.

(** With fewer turns the first ladder is still being built. *)
Lemma default_plan_needs_40 : _build_segments 39 default_params = Spinning.
Proof. vm_compute. reflexivity. Qed.

(** *** A step below [epsilon] *)

(** C5 at step 1e-13.  The zero check of [_build_segments] lets the step
    through, [generate_segment_levels] then takes it for zero and returns
    the one-level ladder [[start]] for each of the four segments: the
    commanded path is [0, 4, 0, -4], it ends on -4.0, which is not within
    [epsilon] of 0, and no ladder has reached its segment's stop. *)
Theorem tiny_step_plan (fuel : nat) :
  _build_segments fuel tiny_step_params
  = Ok (tiny_step_segments, [0; 4; 0; -4]%float)
  ∧ isclose_body (-4) 0 (epsilon_of (py_abs (step_v tiny_step_params))) = false
  ∧ Forall (λ seg,
              segment_ladder fuel
                (epsilon_of (py_abs (step_v tiny_step_params))) seg
              = Ok [seg.1.1]
              ∧ isclose_body seg.1.1 seg.1.2
                  (epsilon_of (py_abs (step_v tiny_step_params))) = false)
           tiny_step_segments.
Proof.
  split; [|split].
  - destruct fuel; vm_compute; reflexivity.
  - vm_compute. reflexivity.
  - repeat constructor; destruct fuel; vm_compute; reflexivity.
Qed.

(** *** What the loop guarantees whenever it returns *)

(** A level that went through the clamp is [stop] itself or has not passed
    [stop] by more than [epsilon] in the direction of travel. *)
Lemma clamp_bounded (epsilon stop : float) (direction : Z) (x : float) :
  clamp epsilon stop direction x = stop
  ∨ (clamp epsilon stop direction x = x
     ∧ ((0 < direction)%Z → gt x (stop + epsilon)%float = false)
     ∧ ((direction < 0)%Z → lt x (stop - epsilon)%float = false)).
Proof.
  unfold clamp.
  destruct (0 <? direction)%Z eqn:Hp; simpl.
  - destruct (gt x (stop + epsilon)) eqn:Hg; [by left|].
    apply Z.ltb_lt in Hp.
    destruct (direction <? 0)%Z eqn:Hn; [apply Z.ltb_lt in Hn; lia|].
    simpl. right. split; [done|]. split; [done|]. lia.
  - apply Z.ltb_ge in Hp.
    destruct (direction <? 0)%Z eqn:Hn; simpl.
    + destruct (lt x (stop - epsilon)) eqn:Hl; [by left|].
      right. split; [done|]. split; [lia | done].
    + right. split; [done|]. apply Z.ltb_ge in Hn. split; lia.
Qed.

(** The levels are only ever extended, and every added level came out of
    the clamp. *)
Lemma ladder_loop_levels (fuel : nat) (epsilon stop seg_step : float)
    (direction : Z) (current : float) (levels out : list float) :
  ladder_loop fuel epsilon stop seg_step direction current levels = Ok out →
  ∃ added,
    out = levels ++ added
    ∧ Forall (λ x, x = stop
                   ∨ (((0 < direction)%Z → gt x (stop + epsilon)%float = false)
                      ∧ ((direction < 0)%Z → lt x (stop - epsilon)%float = false)))
             added.
Proof.
  revert current levels.
  induction fuel as [|fuel IH]; intros current levels H; [done|].
  simpl in H.
  destruct (math_isclose _ current epsilon) as [[|]| |]; simpl in H; try done.
  { injection H as <-. exists []. by rewrite app_nil_r. }
  set (next := clamp epsilon stop direction (current + seg_step)) in *.
  assert (Hnext : next = stop
                  ∨ (((0 < direction)%Z → gt next (stop + epsilon)%float = false)
                     ∧ ((direction < 0)%Z → lt next (stop - epsilon)%float = false))).
  { subst next. destruct (clamp_bounded epsilon stop direction
                            (current + seg_step)) as [->|(-> & ? & ?)]; auto. }
  destruct (math_isclose next stop epsilon) as [[|]| |]; simpl in H; try done.
  - injection H as <-. exists [next]. split; [done|]. by constructor.
  - destruct (IH _ _ H) as (added & -> & Hall).
    exists (next :: added). split; [by rewrite <- app_assoc|].
    by constructor.
Qed.


(** *** A zero step *)

Lemma math_isclose_zero_step (x abs_tol : float) :
  PrimFloat.eqb x 0%float = true →
  lt abs_tol 0%float = false →
  math_isclose x 0%float abs_tol = Ok true.
Proof.
  intros Hx Htol. unfold math_isclose, isclose. rewrite Htol.
  unfold isclose_body. by rewrite Hx.
Qed.

Lemma py_abs_zero (x : float) :
  PrimFloat.eqb x 0%float = true → py_abs x = 0%float.
Proof.
  intros H. destruct (PyFloatFacts.eqb_zero_inv x H) as [->| ->];
    vm_compute; reflexivity.
Qed.

(** X26.  A zero step, negative zero included, makes [_build_segments]
    raise [ValueError] at once, whatever the number of loop turns allowed:
    no ladder is generated. *)
Lemma build_segments_zero_step (fuel : nat) (params : sweep_params) :
  PrimFloat.eqb (step_v params) 0%float = true →
  _build_segments fuel params = Raised (ValueError zero_step_message).
Proof.
  intros H. unfold _build_segments. rewrite (py_abs_zero _ H).
  replace (math_isclose 0 0 1e-15) with (Ok true) by (vm_compute; reflexivity).
  reflexivity.
Qed.

(** X30.  The ladder generator itself returns without entering its loop
    when the step is zero: it gives the one-level ladder [[start]] with no
    loop turn at all. *)
Lemma generate_segment_levels_zero_step (fuel : nat)
    (epsilon start stop seg_step : float) :
  PrimFloat.eqb seg_step 0%float = true →
  lt epsilon 0%float = false →
  generate_segment_levels fuel epsilon start stop seg_step = Ok [start].
Proof.
  intros H Heps. unfold generate_segment_levels.
  by rewrite (math_isclose_zero_step _ _ H Heps).
Qed.

End PlannerFacts.

(** ** The drain loop *)

Module DrainFacts.
Import Py Visa Drain.

(** The stop event stays unset for the next [n] polls. *)
Definition quiet_for (n : nat) (stop : stop_event) : Prop :=
  match stop with
  | None => True
  | Some k => n < k
  end.

Lemma quiet_poll (n : nat) (stop : stop_event) :
  quiet_for (S n) stop →
  ∃ stop', is_set stop = (false, stop') ∧ quiet_for n stop'.
Proof.
  destruct stop as [[|k]|]; simpl; intros H.
  - lia.
  - exists (Some k). split; [done|]. simpl. lia.
  - by exists None.
Qed.

Lemma quiet_first (stop : stop_event) :
  quiet_for 0 stop → ∃ stop', is_set stop = (false, stop').
Proof.
  destruct stop as [[|k]|]; simpl; intros H; [lia | by eexists | by eexists].
Qed.

(** One turn of the loop is one poll and one [read()] of the session. *)
Lemma read_loop_turn {S : Type} (marker : string)
    (on_line : option (string → S → cb_result S)) (i : instrument)
    (stop stop' : stop_event) (cb : S) (lines : list string) :
  is_set stop = (false, stop') →
  read_loop marker on_line (inbox i) stop cb lines
  = match read i with
    | (i', inl status) =>
        (Raised (RuntimeError (wait_failure status)),
         DrainEnd (inbox i') stop' cb)
    | (i', inr text) =>
        let line := py_strip text in
        if String.eqb line marker then (Ok lines, DrainEnd (inbox i') stop' cb)
        else if truthy line then
          read_loop marker on_line (inbox i') stop'
            (match on_line with
             | Some f => cb_state (f line cb)
             | None => cb
             end) (lines ++ [line])
        else read_loop marker on_line (inbox i') stop' cb lines
    end.
Proof.
  intros Hq. unfold read. destruct i as [[|[text|status] rest] written left];
    simpl; rewrite Hq; reflexivity.
Qed.

(** A failed read ends the loop with a [RuntimeError], whatever its
    status, and nothing more is read. *)
Lemma read_loop_fault {S : Type} (marker : string)
    (on_line : option (string → S → cb_result S))
    (before after : list incoming) (status : visa_status) :
  forallb (not_marker marker) before = true →
  ∀ (stop : stop_event) (cb : S) (lines : list string),
    quiet_for (length before) stop →
    ∃ stop' cb',
      read_loop marker on_line (before ++ Fault status :: after) stop cb lines
      = (Raised (RuntimeError (wait_failure status)),
         DrainEnd after stop' cb').
Proof.
  induction before as [|ev before IH]; intros Hpre stop cb lines Hq.
  - destruct (quiet_first stop Hq) as (stop' & Hs).
    exists stop', cb. simpl. by rewrite Hs.
  - simpl in Hpre. apply andb_true_iff in Hpre as [Hev Hpre].
    destruct (quiet_poll _ stop Hq) as (stop' & Hs & Hq').
    destruct ev as [text|st]; [|done]. simpl in Hev.
    apply negb_true_iff in Hev.
    cbn [app read_loop]. rewrite Hs, Hev.
    destruct (truthy (py_strip text)); by apply IH.
Qed.

(** C2 (as amended).  A read timeout that comes before the marker while
    cancellation is not requested ends the drain loop: the loop raises
    [RuntimeError] ("Failed while waiting for sweep output") without
    reading again, as it does for every failed read; it never returns as
    if the segment were complete. *)
Theorem timeout_aborts_drain {S : Type} (marker : string)
    (on_line : option (string → S → cb_result S))
    (before after : list incoming) (stop : stop_event) (cb : S)
    (lines : list string) :
  forallb (not_marker marker) before = true →
  quiet_for (length before) stop →
  (∃ stop' cb',
     read_loop marker on_line (before ++ Fault VI_ERROR_TMO :: after)
       stop cb lines
     = (Raised (RuntimeError (wait_failure VI_ERROR_TMO)),
        DrainEnd after stop' cb'))
  ∧ ∀ printed,
      (read_loop marker on_line (before ++ Fault VI_ERROR_TMO :: after)
         stop cb lines).1 ≠ Ok printed.
Proof.
  intros Hpre Hq.
  destruct (read_loop_fault marker on_line before after VI_ERROR_TMO Hpre
              stop cb lines Hq) as (stop' & cb' & E).
  split; [by exists stop', cb'|].
  intros printed. by rewrite E.
Qed.

(** Two data lines, then a timeout, then the marker. *)
Definition late_marker_inbox : list incoming :=
  [Line "1, 0.1, 2e-3"; Line "2, 0.2, 4e-3"; Fault VI_ERROR_TMO;
   Line "SWEEP_DONE_1_1"].

Lemma timeout_aborts_drain_witness :
  forallb (not_marker "SWEEP_DONE_1_1")
    [Line "1, 0.1, 2e-3"; Line "2, 0.2, 4e-3"] = true
  ∧ quiet_for 2 None
  ∧ (read_loop (S := unit) "SWEEP_DONE_1_1" None late_marker_inbox None tt []).1
    = Raised (RuntimeError (wait_failure VI_ERROR_TMO)).
Proof.
  split; [reflexivity|]. split; [exact I|].
  destruct (timeout_aborts_drain (S := unit) "SWEEP_DONE_1_1" None
              [Line "1, 0.1, 2e-3"; Line "2, 0.2, 4e-3"]
              [Line "SWEEP_DONE_1_1"] None tt [] eq_refl I)
    as ((stop' & cb' & E) & _).
  unfold late_marker_inbox. simpl app in E. by rewrite E.
Defined.

(** *** The claim as the specification words it *)

(** A timeout before the marker, with cancellation not requested, counts
    as still waiting: the loop reads on, as if the timed-out read had not
    happened. *)
Definition timeout_keeps_waiting : Prop :=
  ∀ (marker : string) (before after : list incoming),
    forallb (not_marker marker) before = true →
    (read_loop (S := unit) marker None
       (before ++ Fault VI_ERROR_TMO :: after) None tt []).1
    = (read_loop (S := unit) marker None (before ++ after) None tt []).1.

(** One timed-out read, then the marker: waiting on would end the segment
    with no printed line; the loop raises instead. *)
Lemma timeout_keeps_waiting_fails : ¬ timeout_keeps_waiting.
Proof.
  intros H.
  specialize (H "SWEEP_DONE_1_1" [] [Line "SWEEP_DONE_1_1"] eq_refl).
  vm_compute in H. discriminate.
Qed.

(** *** Exceptions of the per-line callback *)

Lemma read_loop_calm {S : Type} (marker : string)
    (f : string → S → cb_result S) (inbox : list incoming) :
  ∀ (stop : stop_event) (cb : S) (lines : list string),
    read_loop marker (Some f) inbox stop cb lines
    = read_loop marker (Some (calm f)) inbox stop cb lines.
Proof.
  induction inbox as [|ev inbox IH]; intros stop cb lines; simpl.
  - reflexivity.
  - destruct (is_set stop) as [[|] stop']; [reflexivity|].
    destruct ev as [text|status]; [|reflexivity].
    destruct (String.eqb (py_strip text) marker); [reflexivity|].
    destruct (truthy (py_strip text)); [|apply IH].
    unfold calm at 1. destruct (f (py_strip text) cb); simpl; apply IH.
Qed.

(** C10.  An exception raised by the per-line callback on a data line is
    caught and dropped: the loop reads on, the stripped line is appended to
    the printed lines, and the whole run of the loop (result, responses
    consumed, state left behind) is the one of the same callback with its
    exceptions removed. *)
Theorem callback_error_ignored {S : Type} (marker : string)
    (f : string → S → cb_result S) (inbox : list incoming)
    (stop : stop_event) (cb : S) (lines : list string) :
  read_loop marker (Some f) inbox stop cb lines
  = read_loop marker (Some (calm f)) inbox stop cb lines
  ∧ ∀ text rest stop' e s',
      inbox = Line text :: rest →
      is_set stop = (false, stop') →
      data_line marker text = true →
      f (py_strip text) cb = Threw e s' →
      read_loop marker (Some f) inbox stop cb lines
      = read_loop marker (Some f) rest stop' s' (lines ++ [py_strip text]).
Proof.
  split; [apply read_loop_calm|].
  intros text rest stop' e s' -> Hs Hdata Hf.
  unfold data_line in Hdata. apply andb_true_iff in Hdata as [Hm Ht].
  apply negb_true_iff in Hm.
  simpl. by rewrite Hs, Hm, Ht, Hf.
Qed.

(** A callback that counts the lines it is given and raises on every one
    of them. *)
Definition failing_callback : string → nat → cb_result nat :=
  λ _ n, Threw (RuntimeError "main thread is not in main loop") (S n).

Lemma callback_error_ignored_witness :
  read_loop "SWEEP_DONE_1_1" (Some failing_callback)
    [Line "1, 0.1, 2e-3"; Line "SWEEP_DONE_1_1"] None 0 []
  = (Ok ["1, 0.1, 2e-3"], DrainEnd [] None 1).
Proof.
  rewrite (proj2 (callback_error_ignored "SWEEP_DONE_1_1" failing_callback
                    [Line "1, 0.1, 2e-3"; Line "SWEEP_DONE_1_1"] None 0 [])
             "1, 0.1, 2e-3" [Line "SWEEP_DONE_1_1"] None
             (RuntimeError "main thread is not in main loop") 1
             eq_refl eq_refl eq_refl eq_refl).
  reflexivity.
Defined.

End DrainFacts.

(** ** Progress snapshots *)

Module SnapshotFacts.
Import Snapshot.

(** *** Lists of copied items *)

Lemma obj_values_with (o : obj) (values : list value) :
  length values = length (obj_values o) →
  obj_values (obj_with o values) = values.
Proof.
  destruct o as [items|items]; simpl; [done|].
  intros Hlen. rewrite length_fmap in Hlen.
  rewrite snd_zip; [done|]. rewrite length_fmap. lia.
Qed.

Lemma obj_values_with_nil (o : obj) : obj_values (obj_with o []) = [].
Proof.
  destruct o as [items|items]; simpl; [done|].
  by rewrite zip_with_nil_r.
Qed.

Lemma obj_tree_with (o : obj) (values : list value) (children : list tree) :
  length values = length (obj_values o) →
  obj_tree (obj_with o values) children = obj_tree o children.
Proof.
  destruct o as [items|items]; simpl; [done|].
  intros Hlen. rewrite length_fmap in Hlen.
  rewrite fst_zip; [done|]. rewrite length_fmap. lia.
Qed.

Lemma traverse_fmap_ext {A B C : Type} (f : B → option C) (g : A → option C)
    (k : A → B) (l : list A) :
  Forall (λ x, f (k x) = g x) l → traverse f (k <$> l) = traverse g l.
Proof.
  induction 1 as [|x l Hx _ IH]; [done|].
  rewrite fmap_cons. cbn [traverse]. by rewrite Hx, IH.
Qed.

Lemma traverse_ext {A B : Type} (f g : A → option B) (l : list A) :
  Forall (λ x, f x = g x) l → traverse f l = traverse g l.
Proof.
  induction 1 as [|x l Hx _ IH]; simpl; [done|]. by rewrite Hx, IH.
Qed.

(** *** The invariant of a copy in progress *)

Section Copy.

(** The heap at the hand-off. *)
Variable H0 : gmap loc obj.
Hypothesis H0_closed : closed H0.

(** A value of the live structure: its reference, if any, is to an object
    of [H0]. *)
Definition old (x : value) : Prop := ∀ r, x = VRef r → r ∈ dom H0.

(** A value of the copy: its reference, if any, is to an object made since
    the hand-off. *)
Definition new (h : gmap loc obj) (x : value) : Prop :=
  ∀ r, x = VRef r → r ∈ dom h ∧ r ∉ dom H0.

(** A value seen through the memo. *)
Definition rename (m : gmap loc loc) (x : value) : value :=
  match x with
  | VRef l => match m !! l with Some l' => VRef l' | None => x end
  | _ => x
  end.

(** The copy [l'] of the object [l] is finished: it holds the values of
    [l], each seen through the memo. *)
Definition finished (st : copy_state) (l l' : loc) : Prop :=
  ∃ o, H0 !! l = Some o
       ∧ st.1 !! l' = Some (obj_with o (rename st.2 <$> obj_values o))
       ∧ Forall (λ v, ∀ r, v = VRef r → r ∈ dom st.2) (obj_values o).

(** [busy] holds the objects whose copy is being filled. *)
Record good (busy : gset loc) (st : copy_state) : Prop := Good {
  good_old : ∀ l, l ∈ dom H0 → st.1 !! l = H0 !! l;
  good_memo : ∀ l l', st.2 !! l = Some l' →
                      l ∈ dom H0 ∧ l' ∈ dom st.1 ∧ l' ∉ dom H0;
  good_new : ∀ l' o, l' ∉ dom H0 → st.1 !! l' = Some o →
                     Forall (new st.1) (obj_values o);
  good_done : ∀ l l', st.2 !! l = Some l' → l ∈ busy ∨ finished st l l'
}.

(** [st'] comes after [st]: objects and memo entries were added, none was
    changed, and the added entries name added objects. *)
Record after (st st' : copy_state) : Prop := After {
  after_dom : dom st.1 ⊆ dom st'.1;
  after_memo : st.2 ⊆ st'.2;
  after_frame : ∀ l, l ∈ dom st.1 → st'.1 !! l = st.1 !! l;
  after_fresh : ∀ l l', st'.2 !! l = Some l' → st.2 !! l = None →
                        l' ∉ dom st.1
}.

Lemma after_refl (st : copy_state) : after st st.
Proof.
  split; [done | done | done |]. intros l l' H1 H2. congruence.
Qed.

Lemma after_trans (st1 st2 st3 : copy_state) :
  after st1 st2 → after st2 st3 → after st1 st3.
Proof.
  intros [D1 M1 F1 N1] [D2 M2 F2 N2]. split.
  - set_solver.
  - by etrans.
  - intros l Hl. rewrite F2 by set_solver. by apply F1.
  - intros l l' H3 H1.
    destruct (st2.2 !! l) as [l2|] eqn:E2.
    + assert (st3.2 !! l = Some l2)
        by (eapply lookup_weaken; [exact E2 | exact M2]).
      assert (l' = l2) as -> by congruence. by eapply N1.
    + specialize (N2 l l' H3 E2). set_solver.
Qed.

Lemma new_mono (h h' : gmap loc obj) (x : value) :
  dom h ⊆ dom h' → new h x → new h' x.
Proof. intros Hd Hx r ->. destruct (Hx r eq_refl). set_solver. Qed.

Lemma rename_mono (m m' : gmap loc loc) (x : value) :
  m ⊆ m' → (∀ r, x = VRef r → r ∈ dom m) → rename m' x = rename m x.
Proof.
  intros Hm Hx. destruct x as [| | | | |l]; try done. simpl.
  pose proof (Hx l eq_refl) as Hl. apply elem_of_dom in Hl as [l' E].
  rewrite E.
  by rewrite (lookup_weaken _ _ _ _ E Hm).
Qed.

Lemma finished_after (st st' : copy_state) (l l' : loc) :
  after st st' → l' ∈ dom st.1 → finished st l l' → finished st' l l'.
Proof.
  intros [D M F N] Hl' (o & Ho & Hc & Hr). exists o. split; [done|].
  split.
  - rewrite F by done. rewrite Hc. f_equal. f_equal.
    apply list_fmap_ext. intros i v Hv. symmetry. apply rename_mono; [done|].
    eapply Forall_lookup_1 in Hr; [|exact Hv]. done.
  - eapply Forall_impl; [exact Hr|]. intros v Hv r ->.
    specialize (Hv r eq_refl). apply subseteq_dom in M. set_solver.
Qed.

Lemma good_dom (busy : gset loc) (st : copy_state) :
  good busy st → dom H0 ⊆ dom st.1.
Proof.
  intros G l Hl. apply elem_of_dom. rewrite (good_old _ _ G l Hl).
  by apply elem_of_dom.
Qed.

(** What a copying function has to deliver. *)
Definition cp_spec (cp : value → copy_state → option (value * copy_state))
    : Prop :=
  ∀ busy x st x' st',
    good busy st → old x → cp x st = Some (x', st') →
    good busy st' ∧ after st st' ∧ x' = rename st'.2 x
    ∧ ∀ r, x = VRef r → r ∈ dom st'.2.

Lemma copy_items_spec
    (cp : value → copy_state → option (value * copy_state)) :
  cp_spec cp →
  ∀ busy items st items' st',
    good busy st → Forall old items →
    copy_items cp items st = Some (items', st') →
    good busy st' ∧ after st st' ∧ items' = rename st'.2 <$> items
    ∧ Forall (λ v, ∀ r, v = VRef r → r ∈ dom st'.2) items.
Proof.
  intros Hcp busy items.
  induction items as [|x items IH]; intros st items' st' G Hold H; simpl in H.
  - injection H as <- <-. split; [done|]. split; [apply after_refl|]. done.
  - apply Forall_cons in Hold as [Hx Hold].
    destruct (cp x st) as [[x1 st1]|] eqn:E1; [|done].
    destruct (copy_items cp items st1) as [[rest st2]|] eqn:E2; [|done].
    injection H as <- <-.
    destruct (Hcp _ _ _ _ _ G Hx E1) as (G1 & A1 & -> & D1).
    destruct (IH _ _ _ G1 Hold E2) as (G2 & A2 & -> & D2).
    split; [done|]. split; [by eapply after_trans|]. split.
    + rewrite fmap_cons. f_equal. symmetry.
      apply rename_mono; [apply A2 | done].
    + constructor; [|done]. intros r ->.
      specialize (D1 r eq_refl). pose proof (after_memo _ _ A2) as M.
      apply subseteq_dom in M. set_solver.
Qed.

Lemma good_start (busy : gset loc) (st : copy_state) (l : loc) (o : obj) :
  good busy st → l ∈ dom H0 → st.2 !! l = None →
  let l' := fresh (dom st.1) in
  let st1 := (<[l' := obj_with o []]> st.1, <[l := l']> st.2) in
  good (busy ∪ {[l]}) st1 ∧ after st st1.
Proof.
  intros G Hl Hmiss l' st1.
  assert (Hfresh : l' ∉ dom st.1) by apply is_fresh.
  assert (Hl'0 : l' ∉ dom H0) by (pose proof (good_dom _ _ G); set_solver).
  assert (A1 : after st st1).
  { split; simpl.
    - rewrite dom_insert_L. set_solver.
    - by apply insert_subseteq.
    - intros l0 Hl0. apply lookup_insert_ne. set_solver.
    - intros l0 l0' H1 H2. destruct (decide (l0 = l)) as [->|Hne].
      + rewrite lookup_insert_eq in H1. by injection H1 as <-.
      + rewrite lookup_insert_ne in H1 by done. congruence. }
  split; [|done]. split; simpl.
  - intros l0 Hl0. rewrite lookup_insert_ne by set_solver.
    by apply (good_old _ _ G).
  - intros l0 l0' H1. rewrite dom_insert_L.
    destruct (decide (l0 = l)) as [->|Hne].
    + rewrite lookup_insert_eq in H1. injection H1 as <-. set_solver.
    + rewrite lookup_insert_ne in H1 by done.
      destruct (good_memo _ _ G _ _ H1) as (? & ? & ?). set_solver.
  - intros l0' o0 Hl0 H1. destruct (decide (l0' = l')) as [->|Hne].
    + rewrite lookup_insert_eq in H1. injection H1 as <-.
      rewrite obj_values_with_nil. constructor.
    + rewrite lookup_insert_ne in H1 by done.
      eapply Forall_impl; [exact (good_new _ _ G _ _ Hl0 H1)|].
      intros v Hv. eapply new_mono; [|exact Hv].
      rewrite dom_insert_L. set_solver.
  - intros l0 l0' H1. destruct (decide (l0 = l)) as [->|Hne].
    + left. set_solver.
    + rewrite lookup_insert_ne in H1 by done.
      destruct (good_done _ _ G _ _ H1) as [Hb|Hf]; [left; set_solver|].
      right. eapply (finished_after st st1); [done | | done].
      by destruct (good_memo _ _ G _ _ H1) as (? & ? & ?).
Qed.

Lemma good_finish (busy : gset loc) (st st2 : copy_state) (l : loc) (o : obj) :
  good busy st → l ∈ dom H0 → st.2 !! l = None → st.1 !! l = Some o →
  let l' := fresh (dom st.1) in
  let st1 := (<[l' := obj_with o []]> st.1, <[l := l']> st.2) in
  good (busy ∪ {[l]}) st2 → after st1 st2 →
  Forall (λ v, ∀ r, v = VRef r → r ∈ dom st2.2) (obj_values o) →
  let st' := (<[l' := obj_with o (rename st2.2 <$> obj_values o)]> st2.1,
              st2.2) in
  good busy st' ∧ after st st' ∧ st2.2 !! l = Some l'.
Proof.
  intros G Hl Hmiss Ho l' st1 G2 A2 D2 st'.
  assert (Hfresh : l' ∉ dom st.1) by apply is_fresh.
  assert (Hl'0 : l' ∉ dom H0) by (pose proof (good_dom _ _ G); set_solver).
  destruct (good_start busy st l o G Hl Hmiss) as (G1 & A1).
  fold l' in G1, A1. fold st1 in G1, A1.
  assert (Hl'1 : l' ∈ dom st1.1) by (simpl; rewrite dom_insert_L; set_solver).
  assert (Hl'2 : l' ∈ dom st2.1) by (pose proof (after_dom _ _ A2); set_solver).
  assert (Hm2 : st2.2 !! l = Some l').
  { eapply lookup_weaken; [|exact (after_memo _ _ A2)].
    simpl. apply lookup_insert_eq. }
  assert (Hdom' : dom st'.1 = dom st2.1).
  { simpl. rewrite dom_insert_L. set_solver. }
  assert (HoH0 : H0 !! l = Some o) by (by rewrite <- (good_old _ _ G l Hl)).
  split; [|split; [|done]].
  - split.
    + intros l0 Hl0. simpl. rewrite lookup_insert_ne by set_solver.
      by apply (good_old _ _ G2).
    + intros l0 l0' H1. rewrite Hdom'. by apply (good_memo _ _ G2).
    + intros l0' o0 Hl0 H1. simpl in H1.
      destruct (decide (l0' = l')) as [->|Hne].
      * rewrite lookup_insert_eq in H1. injection H1 as <-.
        rewrite obj_values_with by (by rewrite length_fmap).
        apply Forall_fmap. eapply Forall_impl; [exact D2|].
        intros v Hv r Hr. destruct v as [| | | | |l0]; try done.
        simpl in Hr. specialize (Hv l0 eq_refl).
        apply elem_of_dom in Hv as [l0' E]. rewrite E in Hr.
        injection Hr as <-. rewrite Hdom'.
        by destruct (good_memo _ _ G2 _ _ E) as (? & ? & ?).
      * rewrite lookup_insert_ne in H1 by done.
        eapply Forall_impl; [exact (good_new _ _ G2 _ _ Hl0 H1)|].
        intros v Hv. eapply new_mono; [|exact Hv]. by rewrite Hdom'.
    + intros l0 l0' H1. simpl in H1.
      destruct (decide (l0 = l)) as [->|Hne].
      * right. assert (l0' = l') as -> by congruence.
        exists o. split; [done|]. split; [|done].
        simpl. apply lookup_insert_eq.
      * destruct (good_done _ _ G2 _ _ H1) as [Hb|Hf]; [left; set_solver|].
        right. destruct Hf as (o0 & H00 & Hc & Hr). exists o0.
        split; [done|]. split; [|done]. simpl.
        rewrite lookup_insert_ne; [done|].
        destruct (st.2 !! l0) as [y|] eqn:Ey.
        -- assert (st2.2 !! l0 = Some y).
           { eapply lookup_weaken; [|exact (after_memo _ _ A2)].
             simpl. by rewrite lookup_insert_ne. }
           assert (l0' = y) as -> by congruence.
           destruct (good_memo _ _ G _ _ Ey) as (? & ? & ?). set_solver.
        -- assert (st1.2 !! l0 = None)
             by (simpl; by rewrite lookup_insert_ne).
           pose proof (after_fresh _ _ A2 _ _ H1 H). set_solver.
  - split.
    + rewrite Hdom'. pose proof (after_dom _ _ A1).
      pose proof (after_dom _ _ A2). set_solver.
    + etrans; [exact (after_memo _ _ A1) | exact (after_memo _ _ A2)].
    + intros l0 Hl0. simpl. rewrite lookup_insert_ne by set_solver.
      rewrite (after_frame _ _ A2) by (pose proof (after_dom _ _ A1); set_solver).
      by apply (after_frame _ _ A1).
    + intros l0 l0' H1 H2. simpl in H1.
      destruct (decide (l0 = l)) as [->|Hne].
      * assert (l0' = l') as -> by congruence. done.
      * assert (st1.2 !! l0 = None)
          by (simpl; by rewrite lookup_insert_ne).
        pose proof (after_fresh _ _ A2 _ _ H1 H).
        pose proof (after_dom _ _ A1). set_solver.
Qed.

(** [deepcopy_rec] keeps the invariant and returns its argument seen
    through the memo. *)
Lemma deepcopy_rec_spec (fuel : nat) : cp_spec (deepcopy_rec fuel).
Proof.
  induction fuel as [|fuel IH]; intros busy x st x' st' G Hold H;
    (destruct x as [| | | | |l];
     [injection H as <- <-; split; [done|]; split; [apply after_refl|]; done ..
     |]);
    simpl in H; destruct (st.2 !! l) as [y|] eqn:Ey.
  1,3: injection H as <- <-; split; [done|]; split; [apply after_refl|];
       simpl; rewrite Ey; split; [done|]; intros r [= <-];
       by apply elem_of_dom.
  - done.
  - destruct (st.1 !! l) as [o|] eqn:Ho; [|done].
    destruct (copy_items _ _ _) as [[items' st2]|] eqn:Hitems; [|done].
    injection H as <- <-.
    assert (Hl : l ∈ dom H0) by (by apply Hold).
    destruct (good_start busy st l o G Hl Ey) as (G1 & A1).
    assert (HoH0 : H0 !! l = Some o) by (by rewrite <- (good_old _ _ G l Hl)).
    assert (Hitems_old : Forall old (obj_values o)).
    { apply Forall_forall. intros v Hv r ->. by eapply H0_closed. }
    destruct (copy_items_spec _ IH _ _ _ _ _ G1 Hitems_old Hitems)
      as (G2 & A2 & -> & D2).
    destruct (good_finish busy st st2 l o G Hl Ey Ho G2 A2 D2)
      as (G' & A' & Hm).
    split; [done|]. split; [done|]. simpl. rewrite Hm. split; [done|].
    intros r [= <-]. by apply elem_of_dom.
Qed.

(** The finished copy shows what the original shows. *)
Lemma view_copy (st : copy_state) :
  good ∅ st →
  ∀ fuel x, old x → (∀ r, x = VRef r → r ∈ dom st.2) →
            view fuel st.1 (rename st.2 x) = view fuel H0 x.
Proof.
  intros G. induction fuel as [|fuel IH]; intros x Hold Hx;
    (destruct x as [| | | | |l]; [done ..|]);
    pose proof (Hx l eq_refl) as Hl; apply elem_of_dom in Hl as [l' E];
    simpl; rewrite E; [done|].
  destruct (good_done _ _ G _ _ E) as [Hb|(o & Ho & Hc & Hr)]; [set_solver|].
  simpl. rewrite Hc, Ho.
  rewrite obj_values_with by (by rewrite length_fmap).
  rewrite (traverse_fmap_ext (view fuel st.1) (view fuel H0)).
  - destruct (traverse (view fuel H0) (obj_values o)); simpl; [|done].
    f_equal. apply obj_tree_with. by rewrite length_fmap.
  - apply Forall_forall. intros v Hv. apply IH.
    + intros r ->. by eapply H0_closed.
    + by eapply Forall_forall in Hr.
Qed.

(** The copy reads the same in every heap that agrees with the heap of
    the copy on the objects made since the hand-off. *)
Lemma view_frame (busy : gset loc) (st : copy_state) (h2 : gmap loc obj) :
  good busy st →
  (∀ l, l ∈ dom st.1 → l ∉ dom H0 → h2 !! l = st.1 !! l) →
  ∀ fuel x, new st.1 x → view fuel h2 x = view fuel st.1 x.
Proof.
  intros G Hagree. induction fuel as [|fuel IH]; intros x Hx;
    (destruct x as [| | | | |l]; [done ..|]); [done|].
  destruct (Hx l eq_refl) as [Hl Hl0]. simpl. rewrite (Hagree l Hl Hl0).
  destruct (st.1 !! l) as [o|] eqn:Ho; [|done]. simpl. f_equal.
  apply traverse_ext. pose proof (good_new _ _ G _ _ Hl0 Ho) as Hnew.
  eapply Forall_impl; [exact Hnew|]. intros v Hv. by apply IH.
Qed.

(** *** The copy returns *)

Lemma uncopied_mono (m m' : gmap loc loc) :
  m ⊆ m' → size (dom H0 ∖ dom m') ≤ size (dom H0 ∖ dom m).
Proof. intros Hm. apply subseteq_size. apply subseteq_dom in Hm. set_solver. Qed.

Lemma copy_items_total
    (cp : value → copy_state → option (value * copy_state)) (fuel : nat) :
  cp_spec cp →
  (∀ busy x st, good busy st → old x → size (dom H0 ∖ dom st.2) ≤ fuel →
                is_Some (cp x st)) →
  ∀ busy items st,
    good busy st → Forall old items → size (dom H0 ∖ dom st.2) ≤ fuel →
    is_Some (copy_items cp items st).
Proof.
  intros Hspec Htotal busy items.
  induction items as [|x items IH]; intros st G Hold Hsize; simpl; [done|].
  apply Forall_cons in Hold as [Hx Hold].
  destruct (Htotal _ _ _ G Hx Hsize) as [[x1 st1] E1]. rewrite E1.
  destruct (Hspec _ _ _ _ _ G Hx E1) as (G1 & A1 & _ & _).
  destruct (IH st1 G1 Hold) as [[rest st2] E2].
  { pose proof (uncopied_mono _ _ (after_memo _ _ A1)). lia. }
  by rewrite E2.
Qed.

(** As many turns as there are objects not yet in the memo are enough. *)
Lemma deepcopy_rec_total (fuel : nat) :
  ∀ busy x st, good busy st → old x → size (dom H0 ∖ dom st.2) ≤ fuel →
               is_Some (deepcopy_rec fuel x st).
Proof.
  induction fuel as [|fuel IH]; intros busy x st G Hold Hsize;
    (destruct x as [| | | | |l]; [done ..|]);
    simpl; destruct (st.2 !! l) as [y|] eqn:Ey; try done;
    assert (Hl : l ∈ dom H0) by (by apply Hold);
    assert (Hin : l ∈ dom H0 ∖ dom st.2)
      by (apply elem_of_difference; split; [done|]; by apply not_elem_of_dom).
  - assert (size (dom H0 ∖ dom st.2) ≠ 0); [|lia].
    apply size_non_empty_iff. set_solver.
  - rewrite (good_old _ _ G l Hl).
    apply elem_of_dom in Hl as [o Ho]. rewrite Ho.
    assert (Ho' : st.1 !! l = Some o) by (by rewrite (good_old _ _ G l)
                                              by (by apply elem_of_dom)).
    destruct (good_start busy st l o G ltac:(by apply elem_of_dom) Ey)
      as (G1 & A1).
    set (st1 := (<[fresh (dom st.1) := obj_with o []]> st.1,
                 <[l := fresh (dom st.1)]> st.2)) in *.
    assert (Hsize1 : size (dom H0 ∖ dom st1.2) ≤ fuel).
    { simpl. rewrite dom_insert_L.
      replace (dom H0 ∖ ({[l]} ∪ dom st.2))
        with ((dom H0 ∖ dom st.2) ∖ {[l]}) by set_solver.
      rewrite size_difference by set_solver. rewrite size_singleton. lia. }
    assert (Hitems_old : Forall old (obj_values o)).
    { apply Forall_forall. intros v Hv r ->. by eapply H0_closed. }
    destruct (copy_items_total _ fuel (deepcopy_rec_spec fuel) (IH)
                _ _ _ G1 Hitems_old Hsize1) as [[items' st2] E].
    by rewrite E.
Qed.

End Copy.

(** The heap at the hand-off is a good state to start a copy from. *)
Lemma good_initial (h : gmap loc obj) : good h ∅ (h, ∅).
Proof.
  split; simpl.
  - done.
  - intros l l' H. by rewrite lookup_empty in H.
  - intros l' o Hl H. apply not_elem_of_dom in Hl. congruence.
  - intros l l' H. by rewrite lookup_empty in H.
Qed.

(** *** Mutations that leave the copies alone *)

Lemma mutated_within_refl (live : gset loc) (h : gmap loc obj) :
  mutated_within live h h.
Proof. by intros l _ _. Qed.

Lemma mutated_within_trans (live : gset loc) (h1 h2 h3 : gmap loc obj) :
  mutated_within live h1 h2 → mutated_within live h2 h3 →
  mutated_within live h1 h3.
Proof.
  intros H12 H23 l Hl Hlive. rewrite H23; [by apply H12 | | done].
  apply elem_of_dom. rewrite H12 by done. by apply elem_of_dom.
Qed.

Lemma store_within (live : gset loc) (h : gmap loc obj) (l : loc) (o : obj) :
  l ∈ live → mutated_within live h (store h l o).
Proof.
  intros Hl l0 Hl0 Hlive. unfold store. apply lookup_insert_ne. set_solver.
Qed.

Lemma new_list_within (live : gset loc) (h : gmap loc obj)
    (items : list value) :
  mutated_within live h (new_list h items).1.
Proof.
  intros l0 Hl0 Hlive. simpl. apply lookup_insert_ne.
  pose proof (is_fresh (dom h)). set_solver.
Qed.

Lemma dict_set_within (live : gset loc) (h : gmap loc obj) (d : loc)
    (key : string) (v : value) :
  d ∈ live → mutated_within live h (dict_set h d key v).
Proof.
  intros Hd. unfold dict_set.
  destruct (h !! d) as [[items|items]|]; try apply mutated_within_refl.
  by apply store_within.
Qed.

Lemma assign_list_within (live : gset loc) (h : gmap loc obj) (entry : loc)
    (key : string) (xs : list value) :
  entry ∈ live → mutated_within live h (assign_list h entry key xs).
Proof.
  intros He. unfold assign_list.
  eapply mutated_within_trans; [apply (new_list_within live h xs)|].
  by apply dict_set_within.
Qed.

(** The updates of an entry in [handle_point] touch the entry, which is
    live, and lists made on the spot. *)
Lemma publish_point_within (live : gset loc) (h : gmap loc obj) (entry : loc)
    (vs cs ms : list float) :
  entry ∈ live → mutated_within live h (publish_point h entry vs cs ms).
Proof.
  intros He. unfold publish_point.
  eapply mutated_within_trans;
    [apply (assign_list_within live h entry "actual_voltages"); exact He|].
  eapply mutated_within_trans;
    [apply (assign_list_within live _ entry "currents"); exact He|].
  eapply mutated_within_trans;
    [apply (assign_list_within live _ entry "corrected_voltages"); exact He|].
  apply dict_set_within. exact He.
Qed.

(** *** The snapshot *)

(** X29 (C9).  On a heap without dangling references, [_snapshot_entries]
    returns (as many recursion turns as the heap has objects are enough),
    and what it returns is a deep copy of the run entries at the hand-off:
    no live object is changed by the copy, the snapshot shows what the
    entries show at that moment, and it shows the same in every later heap
    in which only objects that were live at the hand-off have been changed
    or new objects created, whatever the change, nested lists included. *)
Theorem snapshot_isolated (h : gmap loc obj) (entries : value) :
  closed h →
  (∀ r, entries = VRef r → r ∈ dom h) →
  (∃ h1 snap, _snapshot_entries (size h) h entries = Some (h1, snap))
  ∧ ∀ fuel h1 snap,
      _snapshot_entries fuel h entries = Some (h1, snap) →
      (∀ l, l ∈ dom h → h1 !! l = h !! l)
      ∧ (∀ n, view n h1 snap = view n h entries)
      ∧ ∀ h2, mutated_within (dom h) h1 h2 →
              ∀ n, view n h2 snap = view n h1 snap.
Proof.
  intros Hclosed Hold. unfold _snapshot_entries, deepcopy. split.
  - destruct (deepcopy_rec_total h Hclosed (size h) ∅ entries (h, ∅)
                (good_initial h) Hold) as [[snap st] E].
    { simpl. rewrite dom_empty_L, difference_empty_L, size_dom. done. }
    rewrite E. by eexists _, _.
  - intros fuel h1 snap H.
    destruct (deepcopy_rec fuel entries (h, ∅)) as [[x' st']|] eqn:E; [|done].
    injection H as <- <-.
    destruct (deepcopy_rec_spec h Hclosed fuel ∅ entries (h, ∅) x' st'
                (good_initial h) Hold E) as (G & A & -> & D).
    split; [exact (after_frame _ _ A)|]. split.
    + intros n. by apply (view_copy h Hclosed st' G).
    + intros h2 Hmut n. apply (view_frame h ∅ st' h2 G).
      * intros l Hl Hl0. by apply Hmut.
      * intros r Hr. destruct entries as [| | | | |l]; try done.
        simpl in Hr. specialize (D l eq_refl).
        apply elem_of_dom in D as [l' El]. rewrite El in Hr.
        injection Hr as <-.
        by destruct (good_memo _ _ _ G _ _ El) as (? & ? & ?).
Qed.

Lemma sample_heap_closed : closed sample_heap.
Proof.
  assert (H : map_Forall
                (λ _ o, forallb (λ v, match v with
                                      | VRef r =>
                                          bool_decide (r ∈ dom sample_heap)
                                      | _ => true
                                      end) (obj_values o) = true)
                sample_heap).
  { apply (bool_decide_unpack _). vm_compute. reflexivity. }
  intros l o r Hl Hr. specialize (H l o Hl). simpl in H.
  rewrite forallb_forall in H. apply list_elem_of_In in Hr.
  specialize (H _ Hr). simpl in H. by apply bool_decide_eq_true in H.
Qed.

(** The sample heap: the snapshot of [run_entries] (object 1) survives the
    update of the entry (object 2) that [handle_point] makes for a third
    point. *)
Lemma snapshot_isolated_witness :
  ∃ h1 snap,
    _snapshot_entries (size sample_heap) sample_heap (VRef 1%positive)
    = Some (h1, snap)
    ∧ view 3 h1 snap = view 3 sample_heap (VRef 1%positive)
    ∧ view 3 (publish_point h1 2%positive three_voltages three_currents
                three_voltages) snap
      = view 3 h1 snap.
Proof.
  assert (Hold : ∀ r, VRef 1%positive = VRef r → r ∈ dom sample_heap).
  { intros r [= <-]. apply (bool_decide_unpack _). vm_compute. reflexivity. }
  destruct (snapshot_isolated sample_heap (VRef 1%positive)
              sample_heap_closed Hold) as ((h1 & snap & E) & Hall).
  exists h1, snap. split; [exact E|].
  destruct (Hall _ _ _ E) as (_ & Hsame & Hkeep).
  split; [apply Hsame|]. apply Hkeep.
  apply publish_point_within. apply (bool_decide_unpack _). vm_compute.
  reflexivity.
Defined.

(** The same run computed: the live entries show the third point, the
    snapshot still shows two. *)
Lemma snapshot_keeps_two_points :
  match _snapshot_entries 6 sample_heap (VRef 1%positive) with
  | Some (h1, snap) =>
      let h2 := publish_point h1 2%positive three_voltages three_currents
                  three_voltages in
      view 3 h2 snap = view 3 sample_heap (VRef 1%positive)
      ∧ view 3 h2 (VRef 1%positive) ≠ view 3 sample_heap (VRef 1%positive)
  | None => False
  end.
Proof. vm_compute. split; [reflexivity | discriminate]. Qed.

End SnapshotFacts.

(** ** Session hand-off *)

Module AppFacts.
Import PyFloat Py Visa Planner Sweep App.

(** *** The locked listener *)

Lemma guarded_locked (action : string) (method : listener_method) (a : app) :
  _instrument_locked (trigger a) = true →
  guarded action method a
  = emit (Dialog ShowInfo "Instrument Busy" (busy_message action)) a.
Proof.
  intros Hlocked. unfold guarded, _guard_if_locked. by rewrite Hlocked.
Qed.

(** X28 (C7).  While the listener is locked, [start_wait], [setup_trigger] and
    [disconnect] each show the "Instrument Busy" dialog and do nothing
    else: the base-class method is not run, the sessions, the listener and
    the sweep window are as before, and nothing is left behind to run
    later. *)
Theorem locked_listener_rejects (a : app) :
  _instrument_locked (trigger a) = true →
  start_wait a
  = emit (Dialog ShowInfo "Instrument Busy"
            "Cannot start a new wait while an I-V sweep is running.") a
  ∧ setup_trigger a
    = emit (Dialog ShowInfo "Instrument Busy"
              "Cannot configure the trigger while an I-V sweep is running.") a
  ∧ disconnect a
    = emit (Dialog ShowInfo "Instrument Busy"
              "Cannot disconnect while an I-V sweep is running.") a
  ∧ ∀ op, op ∈ [start_wait; setup_trigger; disconnect] →
          sessions (op a) = sessions a
          ∧ trigger (op a) = trigger a
          ∧ iv (op a) = iv a
          ∧ ∃ message,
              trace (op a)
              = trace a ++ [Dialog ShowInfo "Instrument Busy" message].
Proof.
  intros Hlocked.
  pose proof (guarded_locked "start a new wait" StartWait a Hlocked) as H1.
  pose proof (guarded_locked "configure the trigger" SetupTrigger a Hlocked)
    as H2.
  pose proof (guarded_locked "disconnect" Disconnect a Hlocked) as H3.
  split; [exact H1|]. split; [exact H2|]. split; [exact H3|].
  intros op Hop. repeat (apply elem_of_cons in Hop as [->|Hop]);
    [unfold start_wait; rewrite H1 | unfold setup_trigger; rewrite H2
    | unfold disconnect; rewrite H3 | by apply elem_of_nil in Hop];
    (repeat split; [by eexists]).
Qed.

Lemma locked_listener_rejects_witness :
  _instrument_locked (trigger sweeping_app) = true
  ∧ disconnect sweeping_app
    = emit (Dialog ShowInfo "Instrument Busy"
              "Cannot disconnect while an I-V sweep is running.") sweeping_app.
Proof.
  assert (H : _instrument_locked (trigger sweeping_app) = true)
    by (vm_compute; reflexivity).
  split; [exact H|].
  exact (proj1 (proj2 (proj2 (locked_listener_rejects sweeping_app H)))).
Defined.

(** *** Starting a sweep *)

Section Builtins.

Variable py_float : string → option float.

Lemma parse_float_settled (value label : string) :
  parse_float py_float value label ≠ Spinning.
Proof. unfold parse_float. by destruct (py_float value). Qed.

Lemma py_int_settled (x : float) : py_int x ≠ Spinning.
Proof. unfold py_int. by destruct (Prim2SF x) as [| | |[|] ? ?]. Qed.

Lemma collect_parameters_settled (f : form) :
  _collect_parameters py_float f ≠ Spinning.
Proof.
  unfold _collect_parameters, parse_float.
  destruct (py_float (start_var f)); [|done].
  destruct (py_float (stop_var f)); [|done].
  destruct (py_float (step_var f)) as [step|]; [|done]. simpl.
  destruct (PrimFloat.eqb step 0); [done|].
  destruct (py_float (ilimit_var f)); [|done].
  destruct (py_float (nplc_var f)); [|done].
  destruct (py_float (settle_var f)); [|done]. simpl.
  destruct (truthy _); [|done]. simpl.
  destruct (py_float (py_strip _)) as [runs|]; [|done].
  destruct (is_integer runs); [|done]. simpl.
  pose proof (py_int_settled runs).
  destruct (py_int runs) as [n| |]; try done. simpl.
  by destruct (n <? 1)%Z.
Qed.

(** A zero in the step field stops [_collect_parameters]. *)
Lemma collect_parameters_zero_step (f : form) (start stop step : float) :
  py_float (start_var f) = Some start →
  py_float (stop_var f) = Some stop →
  py_float (step_var f) = Some step →
  PrimFloat.eqb step 0%float = true →
  _collect_parameters py_float f = Raised (ValueError zero_step_message).
Proof.
  intros H1 H2 H3 Hz. unfold _collect_parameters, parse_float.
  rewrite H1, H2, H3. simpl. by rewrite Hz.
Qed.

(** With a zero in the step field [_collect_parameters] raises, whatever
    the other fields hold. *)
Lemma collect_parameters_zero_step_raises (f : form) (step : float) :
  py_float (step_var f) = Some step →
  PrimFloat.eqb step 0%float = true →
  ∃ message, _collect_parameters py_float f = Raised (ValueError message).
Proof.
  intros H3 Hz. unfold _collect_parameters, parse_float.
  destruct (py_float (start_var f)); [|by eexists].
  destruct (py_float (stop_var f)); [|by eexists].
  rewrite H3. simpl. rewrite Hz. by eexists.
Qed.

(** What [IVSweepApp.start_sweep] does: an error dialog and nothing else,
    or the start of the worker thread. *)
Lemma base_start_sweep_cases (a : app) :
  is_sweep_running a = false →
  (∃ title message,
     base_start_sweep py_float a = emit (Dialog ShowError title message) a)
  ∨ (∃ params total_runs,
       trace (base_start_sweep py_float a)
       = trace a ++ [ThreadStarted params total_runs]
       ∧ sweep_thread (iv (base_start_sweep py_float a))
         = Alive params total_runs
       ∧ trigger (base_start_sweep py_float a) = trigger a
       ∧ sessions (base_start_sweep py_float a) = sessions a
       ∧ inst (iv (base_start_sweep py_float a)) = inst (iv a)
       ∧ using_shared_session (iv (base_start_sweep py_float a))
         = using_shared_session (iv a)).
Proof.
  intros Hidle. unfold base_start_sweep.
  destruct (inst (iv a)) as [h|] eqn:Hinst; [|left; by eexists _, _].
  pose proof (collect_parameters_settled (fields (iv a))) as Hs.
  destruct (_collect_parameters py_float (fields (iv a)))
    as [[params total_runs]|e|]; [|left; by eexists _, _|done].
  right. exists params, total_runs.
  unfold is_sweep_running in *. simpl.
  destruct (sweep_thread (iv a)); try done; simpl; by rewrite ?Hinst.
Qed.


(** *** The claim as the specification words it *)

(** In what a handler did, every assignment of the session to the sweep
    window comes after a lock of the listener. *)
Definition locked_before_attached (events : list event) : Prop :=
  ∀ i h, events !! i = Some (Attached h) →
         ∃ j, j < i ∧ events !! j = Some (Locked true).

End Builtins.


(** The trigger of the sample application: the session is assigned at
    position 1 of the trace, the lock follows at position 2. *)
Lemma locked_before_attached_fails :
  ¬ locked_before_attached (trace sweeping_app).
Proof.
  intros H. destruct (H 1 7) as (j & Hj & Hlocked).
  - vm_compute. reflexivity.
  - destruct j as [|[|j]]; [|lia|lia].
    vm_compute in Hlocked. discriminate.
Qed.

End AppFacts.

(** ** More on the reconciler *)

Module ReconcilerExtra.
Import PyFloat Reconciler ReconcilerFacts.

(** *** Comparisons with a float minus itself *)

(** [x - x] is a positive zero or a NaN. *)
Lemma sub_diag_spec (x : float) :
  Prim2SF (x - x)%float = S754_zero false ∨ Prim2SF (x - x)%float = S754_nan.
Proof.
  rewrite sub_spec. unfold SF64sub, SFsub.
  destruct (Prim2SF x) as [[|]|[|]| |s m e]; auto.
  left. rewrite Z.sub_diag. reflexivity.
Qed.

(** A float that is not below 1e-6 is not below zero. *)
Lemma not_below_zero (a : float) :
  PrimFloat.ltb a 1e-6%float = false → PrimFloat.ltb a 0%float = false.
Proof.
  rewrite !ltb_spec.
  change (Prim2SF 0) with (S754_zero false).
  destruct (Prim2SF a) as [[|]|[|]| |[|] m e]; try done;
    vm_compute; discriminate.
Qed.

Lemma py_max_floor_not_negative (a : float) :
  PrimFloat.ltb (py_max a 1e-6%float) 0%float = false.
Proof.
  unfold py_max, gt. destruct (PrimFloat.ltb a 1e-6) eqn:E.
  - vm_compute. reflexivity.
  - by apply not_below_zero.
Qed.

(** No tolerance of the reconciler is exceeded by [abs(x - x)]. *)
Lemma self_within_tolerance (a x : float) :
  gt (py_abs (x - x)%float) (py_max a 1e-6%float) = false.
Proof.
  unfold gt, py_abs. rewrite ltb_spec, abs_spec.
  destruct (sub_diag_spec x) as [-> | ->]; simpl.
  - pose proof (py_max_floor_not_negative a) as H.
    rewrite ltb_spec in H. exact H.
  - unfold SFltb. by destruct (Prim2SF (py_max a 1e-6)) as [?|?| |? ? ?].
Qed.

(** X1.  The result has one value for each measured value, whatever the
    lengths of the two sequences. *)
Theorem match_voltage_sequence_length (expected actual : list float) :
  length (_match_voltage_sequence expected actual) = length actual.
Proof.
  rewrite match_voltage_sequence_unfold.
  destruct expected as [|e es]; [done|].
  destruct actual as [|a acts]; [done|].
  set (len := Nat.min _ _).
  pose proof (scan_invariant (tolerance (e :: es) (a :: acts))
                (e :: es) (a :: acts) len ltac:(lia)) as Hinv.
  destruct (scan _ _ _ len) as [m s]. unfold scan_state_ok in Hinv.
  cbn [fst snd] in Hinv |- *.
  assert (Hm : length m = len).
  { destruct s as [k|].
    - destruct Hinv as (Hk & _ & _ & ->).
      rewrite length_app, length_take, length_drop, length_take.
      subst len. lia.
    - destruct Hinv as (-> & _). rewrite length_take. subst len. lia. }
  rewrite length_app, Hm, length_drop. subst len. lia.
Qed.

(** X2.  A measured sequence equal to the commanded one comes back as it is:
    no point deviates from itself, whatever the floats (infinities and
    NaNs included). *)
Theorem match_voltage_sequence_same (commanded : list float) :
  _match_voltage_sequence commanded commanded = commanded.
Proof.
  apply match_voltage_sequence_clean. intros j Hj. unfold deviates.
  destruct (commanded !! j) as [x|]; [|done].
  apply self_within_tolerance.
Qed.

End ReconcilerExtra.

(** ** More on the drain loop *)

Module DrainExtra.
Import Py Visa Drain DrainFacts.

(** The stripped, non-blank texts of a run of responses: what the loop
    keeps of them. *)
Definition kept_lines (responses : list incoming) : list string :=
  List.filter truthy
    (omap (λ ev, match ev with
                 | Line text => Some (py_strip text)
                 | Fault _ => None
                 end) responses).

(** The callback run over lines, its exceptions dropped. *)
Definition feed {St : Type} (on_line : option (string → St → cb_result St))
    (lines : list string) (cb : St) : St :=
  match on_line with
  | Some f => foldl (λ s line, cb_state (f line s)) cb lines
  | None => cb
  end.

Lemma feed_cons {St : Type} (on_line : option (string → St → cb_result St))
    (line : string) (lines : list string) (cb : St) :
  feed on_line (line :: lines) cb
  = feed on_line lines
      (match on_line with
       | Some f => cb_state (f line cb)
       | None => cb
       end).
Proof. by destruct on_line. Qed.

Lemma read_loop_prefix {St : Type} (marker : string)
    (on_line : option (string → St → cb_result St))
    (before rest : list incoming) :
  forallb (not_marker marker) before = true →
  ∀ (stop : stop_event) (cb : St) (lines : list string),
    quiet_for (length before) stop ∨ stop = Some (length before) →
    ∃ stop',
      read_loop marker on_line (before ++ rest) stop cb lines
      = read_loop marker on_line rest stop'
          (feed on_line (kept_lines before) cb)
          (lines ++ kept_lines before)
      ∧ (quiet_for (length before) stop → quiet_for 0 stop')
      ∧ (stop = Some (length before) → stop' = Some 0).
Proof.
  induction before as [|ev before IH]; intros Hpre stop cb lines Hq.
  - exists stop. rewrite app_nil_r. destruct on_line; simpl; by repeat split.
  - simpl in Hpre. apply andb_true_iff in Hpre as [Hev Hpre].
    destruct ev as [text|st]; [|done]. simpl in Hev.
    apply negb_true_iff in Hev.
    assert (Hs : ∃ stop1, is_set stop = (false, stop1)
                          ∧ (quiet_for (S (length before)) stop
                             → quiet_for (length before) stop1)
                          ∧ (stop = Some (S (length before))
                             → stop1 = Some (length before))).
    { destruct Hq as [Hq | ->].
      - destruct (quiet_poll _ stop Hq) as (stop1 & Hs & Hq').
        exists stop1. split; [done|]. split; [done|].
        intros ->. simpl in Hs. by injection Hs as <-.
      - exists (Some (length before)). split; [done|].
        split; [simpl; lia | done]. }
    destruct Hs as (stop1 & Hs & Hq1 & He1).
    assert (Hq' : quiet_for (length before) stop1
                  ∨ stop1 = Some (length before)).
    { destruct Hq as [Hq|Hq]; [left | right]; auto. }
    cbn [app read_loop]. rewrite Hs, Hev.
    assert (Hk : kept_lines (Line text :: before)
                 = if truthy (py_strip text)
                   then py_strip text :: kept_lines before
                   else kept_lines before) by reflexivity.
    rewrite Hk. destruct (truthy (py_strip text)) eqn:Ht.
    + rewrite feed_cons.
      destruct (IH Hpre stop1
                  (match on_line with
                   | Some f => cb_state (f (py_strip text) cb)
                   | None => cb
                   end) (lines ++ [py_strip text]) Hq')
        as (stop' & E & Hqq & Hee).
      exists stop'. split.
      * rewrite <- app_assoc in E. simpl in E. rewrite <- E.
        destruct on_line as [f|]; [|done]. by destruct (f (py_strip text) cb).
      * split; [tauto|]. intros ->. apply Hee. by apply He1.
    + destruct (IH Hpre stop1 cb lines Hq') as (stop' & E & Hqq & Hee).
      exists stop'. split; [done|]. split; [tauto|].
      intros ->. apply Hee. by apply He1.
Qed.

(** X3.  The loop returns when it reads the marker: the printed lines are the
    stripped, non-blank responses that came before it, in order; the
    callback has been given exactly these lines; the responses after the
    marker are left unread. *)
Theorem read_until_marker_returns {St : Type} (marker : string)
    (on_line : option (string → St → cb_result St))
    (before after : list incoming) (text : string) (stop : stop_event)
    (cb : St) (lines : list string) :
  forallb (not_marker marker) before = true →
  py_strip text = marker →
  quiet_for (length before) stop →
  ∃ stop',
    read_loop marker on_line (before ++ Line text :: after) stop cb lines
    = (Ok (lines ++ kept_lines before),
       DrainEnd after stop' (feed on_line (kept_lines before) cb)).
Proof.
  intros Hpre Hmark Hq.
  destruct (read_loop_prefix marker on_line before (Line text :: after) Hpre
              stop cb lines (or_introl Hq)) as (stop1 & E & Hq1 & _).
  destruct (quiet_first stop1 (Hq1 Hq)) as (stop' & Hs).
  exists stop'. rewrite E. simpl. rewrite Hs, Hmark, String.eqb_refl. done.
Qed.

Lemma read_until_marker_returns_witness :
  ∃ stop',
    read_loop (S := unit) "SWEEP_DONE_1_1" None
      [Line "1, 0.1, 2e-3"; Line "  "; Line " SWEEP_DONE_1_1 "; Line "late"]
      None tt []
    = (Ok ["1, 0.1, 2e-3"], DrainEnd [Line "late"] stop' tt).
Proof.
  apply (read_until_marker_returns (St := unit) "SWEEP_DONE_1_1" None
           [Line "1, 0.1, 2e-3"; Line "  "] [Line "late"]
           " SWEEP_DONE_1_1 " None tt [] eq_refl eq_refl I).
Defined.

(** X4.  Cancellation is seen at the next poll: once the stop event reads as
    set, the loop raises [RuntimeError("Sweep cancelled.")] without reading
    another response, and the lines gathered so far are lost with it. *)
Theorem cancellation_stops_reading {St : Type} (marker : string)
    (on_line : option (string → St → cb_result St))
    (before rest : list incoming) (cb : St) (lines : list string) :
  forallb (not_marker marker) before = true →
  read_loop marker on_line (before ++ rest) (Some (length before)) cb lines
  = (Raised (RuntimeError "Sweep cancelled."),
     DrainEnd rest (Some 0) (feed on_line (kept_lines before) cb)).
Proof.
  intros Hpre.
  destruct (read_loop_prefix marker on_line before rest Hpre
              (Some (length before)) cb lines (or_intror eq_refl))
    as (stop1 & E & _ & Hs).
  rewrite E, (Hs eq_refl). by destruct rest.
Qed.

Lemma cancellation_stops_reading_witness :
  read_loop (S := unit) "SWEEP_DONE_1_1" None
    [Line "1, 0.1, 2e-3"; Line "SWEEP_DONE_1_1"] (Some 1) tt []
  = (Raised (RuntimeError "Sweep cancelled."),
     DrainEnd [Line "SWEEP_DONE_1_1"] (Some 0) tt).
Proof.
  apply (cancellation_stops_reading (St := unit) "SWEEP_DONE_1_1" None
           [Line "1, 0.1, 2e-3"] [Line "SWEEP_DONE_1_1"] tt [] eq_refl).
Defined.

End DrainExtra.

(** ** More on the planner *)

Module PlannerExtra.
Import PyFloat Py Planner PlannerFacts Samples.

(** X5.  No level of a ladder passes the stop by more than [epsilon]: a ladder
    starts on [start], and each further level is [stop] itself or is not
    beyond [stop + epsilon] (going up) or [stop - epsilon] (going down). *)
Theorem ladder_stays_before_stop (fuel : nat)
    (epsilon start stop seg_step : float) (levels : list float) :
  generate_segment_levels fuel epsilon start stop seg_step = Ok levels →
  ∃ added,
    levels = start :: added
    ∧ Forall (λ x, x = stop
                   ∨ (if gt seg_step 0%float
                      then gt x (stop + epsilon)%float = false
                      else lt x (stop - epsilon)%float = false))
             added.
Proof.
  unfold generate_segment_levels. intros H.
  destruct (math_isclose seg_step 0 epsilon) as [[|]| |]; simpl in H; try done.
  - injection H as <-. exists []. by split.
  - destruct (ladder_loop_levels _ _ _ _ _ _ _ _ H) as (added & -> & Hall).
    exists added. split; [done|].
    eapply Forall_impl; [exact Hall|]. intros x [->|[Hup Hdown]]; [by left|].
    right. destruct (gt seg_step 0); [apply Hup | apply Hdown]; lia.
Qed.

Lemma ladder_stays_before_stop_witness :
  ∃ added,
    [0; 4]%float = 0%float :: added
    ∧ Forall (λ x, x = 4%float
                   ∨ (if gt 10 0%float
                      then gt x (4 + epsilon_of 10)%float = false
                      else lt x (4 - epsilon_of 10)%float = false))
             added.
Proof.
  apply (ladder_stays_before_stop 5 (epsilon_of 10) 0 4 10 [0; 4]%float).
  vm_compute. reflexivity.
Defined.

(** *** The path is made of the ladders *)







(** *** A step of zero *)

Lemma build_segments_zero_step_witness :
  PrimFloat.eqb (step_v zero_step_params) 0%float = true
  ∧ _build_segments 0 zero_step_params
    = Raised (ValueError zero_step_message).
Proof.
  split; [reflexivity|].
  apply (build_segments_zero_step 0 zero_step_params). reflexivity.
Defined.

Lemma generate_segment_levels_zero_step_witness :
  generate_segment_levels 0 (epsilon_of 0) 0 4 (-0) = Ok [0%float].
Proof.
  apply (generate_segment_levels_zero_step 0 (epsilon_of 0) 0 4 (-0));
    reflexivity.
Defined.

End PlannerExtra.

(** ** The worker thread *)

Module SweepExtra.
Import PyFloat Py Visa Drain Planner Sweep Samples.

(** *** Jobs *)

Lemma jbind_ok {St A B : Type} (m : job St A) (k : A → job St B)
    (s s' : St) (b : B) :
  jbind m k s = (Ok b, s') →
  ∃ a s1, m s = (Ok a, s1) ∧ k a s1 = (Ok b, s').
Proof.
  unfold jbind. destruct (m s) as [[a| |] s1]; try done. by exists a, s1.
Qed.

(** From a state in [P] the job ends, by returning or by raising, in a
    state in [Q]. *)
Definition triple {A : Type} (P : wstate → Prop) (m : job wstate A)
    (Q : wstate → Prop) : Prop :=
  ∀ w, (m w).1 ≠ Spinning ∧ (P w → Q (m w).2).

Lemma triple_ret {A : Type} (P : wstate → Prop) (a : A) : triple P (ret a) P.
Proof. by intros w. Qed.

Lemma triple_raise {A : Type} (P : wstate → Prop) (e : exn) :
  triple P (raise (A := A) e) P.
Proof. by intros w. Qed.

Lemma triple_get (P : wstate → Prop) : triple P get P.
Proof. by intros w. Qed.

Lemma triple_modify (P Q : wstate → Prop) (f : wstate → wstate) :
  (∀ w, P w → Q (f w)) → triple P (modify f) Q.
Proof. intros Hf w. split; [done | apply Hf]. Qed.

Lemma triple_post {A : Type} (P Q R : wstate → Prop) (m : job wstate A) :
  triple P m Q → (∀ w, Q w → R w) → triple P m R.
Proof. intros Hm HQR w. destruct (Hm w). split; auto. Qed.

(** The continuation may rely on its argument having been returned by the
    first job. *)
Lemma triple_bind_returned {A B : Type} (P Q R : wstate → Prop)
    (m : job wstate A) (k : A → job wstate B) :
  triple P m Q →
  (∀ a, (∃ w w', m w = (Ok a, w')) → triple Q (k a) R) →
  (∀ w, Q w → R w) →
  triple P (jbind m k) R.
Proof.
  intros Hm Hk HQR w. unfold jbind. destruct (Hm w) as [Hend HQ].
  destruct (m w) as [[a|e|] w1] eqn:E; simpl in *; [|auto|done].
  destruct (Hk a (ex_intro _ w (ex_intro _ w1 E)) w1) as [Hend' HR].
  split; auto.
Qed.

Lemma triple_bind {A B : Type} (P Q R : wstate → Prop)
    (m : job wstate A) (k : A → job wstate B) :
  triple P m Q → (∀ a, triple Q (k a) R) → (∀ w, Q w → R w) →
  triple P (jbind m k) R.
Proof. intros Hm Hk. apply triple_bind_returned; auto. Qed.

Lemma triple_for_each {A : Type} (P : wstate → Prop) (xs : list A)
    (body : A → job wstate unit) :
  (∀ x, triple P (body x) P) → triple P (for_each xs body) P.
Proof.
  intros Hb. induction xs as [|x xs IH]; simpl; [apply triple_ret|].
  eapply triple_bind; [apply Hb | by intros _ | done].
Qed.

Lemma triple_on_visa_error {A : Type} (P Q R : wstate → Prop)
    (body : job wstate A) (handler : visa_status → job wstate A) :
  triple P body Q → (∀ status, triple Q (handler status) R) →
  (∀ w, Q w → R w) →
  triple P (on_visa_error body handler) R.
Proof.
  intros Hb Hh HQR w. unfold on_visa_error. destruct (Hb w) as [Hend HQ].
  destruct (body w) as [[a|[?|?|?|?|status]|] w1]; simpl in *; auto.
  destruct (Hh status w1) as [Hend' HR]. split; auto.
Qed.

(** *** Invariants of the stop event and of the live data *)

Definition holds (On : stop_event → Prop) (L : live → Prop) (w : wstate)
    : Prop :=
  On (w_stop w) ∧ L (w_live w).

Definition keeps {A : Type} (On : stop_event → Prop) (L : live → Prop)
    (m : job wstate A) : Prop :=
  triple (holds On L) m (holds On L).

(** The drain loop keeps what every poll of the stop event and every call
    of the callback keep, and it ends whatever it is given: every turn
    takes a response, and the read that finds none times out. *)
Lemma read_loop_invariant {S : Type} (On : stop_event → Prop) (L : S → Prop)
    (marker : string) (f : string → S → cb_result S) (inbox : list incoming) :
  (∀ s, On s → On (is_set s).2) →
  (∀ line s, L s → L (cb_state (f line s))) →
  ∀ stop cb lines,
    (read_loop marker (Some f) inbox stop cb lines).1 ≠ Spinning
    ∧ (On stop → L cb →
       On (rest_stop (read_loop marker (Some f) inbox stop cb lines).2)
       ∧ L (rest_cb (read_loop marker (Some f) inbox stop cb lines).2)).
Proof.
  intros Hpoll Hf.
  induction inbox as [|ev inbox IH]; intros stop cb lines; simpl;
    pose proof (Hpoll stop) as Hs;
    destruct (is_set stop) as [[|] stop']; simpl in *; try (split; auto; done).
  destruct ev as [text|status]; simpl; [|split; auto; done].
  destruct (String.eqb (py_strip text) marker); simpl; [split; auto; done|].
  destruct (truthy (py_strip text)).
  - destruct (IH stop'
                (match f (py_strip text) cb with
                 | Returned s => s
                 | Threw _ s => s
                 end)
                (lines ++ [py_strip text])) as [Hend Hkeep].
    split; [done|]. intros Hon Hcb. apply Hkeep; [auto|].
    specialize (Hf (py_strip text) cb Hcb).
    by destruct (f (py_strip text) cb).
  - destruct (IH stop' cb lines) as [Hend Hkeep]. split; auto.
Qed.

Section Builtins.

Variable py_float : string → option float.
Variable py_str : float → string.
Variable tsp_script : option (list string).

Section Invariant.

Variable On : stop_event → Prop.
Variable L : live → Prop.
Hypothesis On_poll : ∀ s, On s → On (is_set s).2.

Lemma keeps_bind {A B : Type} (m : job wstate A) (k : A → job wstate B) :
  keeps On L m → (∀ a, keeps On L (k a)) → keeps On L (jbind m k).
Proof. intros Hm Hk. eapply triple_bind; eauto. Qed.

Lemma keeps_live (f : live → live) :
  (∀ l, L l → L (f l)) → keeps On L (modify (set_live f)).
Proof.
  intros Hf. apply triple_modify. intros w [Hon Hl]. split; [done|].
  by apply Hf.
Qed.

Lemma keeps_stop_requested : keeps On L stop_requested.
Proof.
  intros w. unfold stop_requested. pose proof (On_poll (w_stop w)) as Hp.
  destruct (is_set (w_stop w)) as [b s]. split; [done|].
  intros [Hon Hl]. split; [by apply Hp | done].
Qed.

Lemma keeps_inst_write (line : string) : keeps On L (inst_write line).
Proof.
  intros w. unfold inst_write. destruct (w_inst w) as [i|]; [|done].
  by destruct (write i line) as [i' [status|]].
Qed.

Lemma keeps_inst_read : keeps On L inst_read.
Proof.
  intros w. unfold inst_read. destruct (w_inst w) as [i|]; [|done].
  by destruct (read i) as [i' [status|text]].
Qed.

Lemma keeps_inst_query (line : string) : keeps On L (inst_query line).
Proof.
  apply keeps_bind; [apply keeps_inst_write | intros _; apply keeps_inst_read].
Qed.

Lemma keeps_py_int (x : float) : keeps On L (λ w : wstate, (py_int x, w)).
Proof.
  intros w. split; [|done]. simpl. unfold py_int.
  by destruct (Prim2SF x) as [| | |[|] m e].
Qed.

Lemma keeps_to_float (text : string) :
  keeps On L (to_float py_float (St := wstate) text).
Proof.
  unfold to_float. destruct (py_float text);
    [apply triple_ret | apply triple_raise].
Qed.

Lemma keeps_drain (marker : string) (f : string → live → cb_result live) :
  (∀ line l, L l → L (cb_state (f line l))) → keeps On L (drain marker f).
Proof.
  intros Hf w. unfold drain, _read_until_marker.
  destruct (w_inst w) as [i|]; simpl; [|done].
  destruct (read_loop_invariant On L marker f (inbox i) On_poll Hf
              (w_stop w) (w_live w) []) as [Hend Hkeep].
  destruct (read_loop _ _ _ _ _ _) as [r e]. simpl in *. split; [done|].
  intros [Hon Hl]. by apply Hkeep.
Qed.

Lemma keeps_fetch_buffer (accessor : string) (count : Z) :
  keeps On L (_fetch_buffer py_float accessor count).
Proof.
  unfold _fetch_buffer. apply keeps_bind; [apply triple_get|]. intros w.
  destruct (w_inst w); [|apply triple_ret].
  destruct (count =? 0)%Z; [apply triple_ret|].
  apply keeps_bind.
  - eapply triple_on_visa_error; [|intros; apply triple_raise|done].
    apply keeps_bind; [apply keeps_inst_query | intros; apply triple_ret].
  - intros response. destruct (truthy response); apply triple_ret.
Qed.

Lemma keeps_ensure_script_loaded : keeps On L (ensure_script_loaded tsp_script).
Proof.
  unfold ensure_script_loaded. apply keeps_bind; [apply triple_get|].
  intros w. destruct (w_inst w); [|apply triple_raise].
  destruct (w_script_loaded w); [apply triple_ret|].
  destruct tsp_script as [script_lines|]; [|apply triple_raise].
  eapply triple_on_visa_error; [| |done].
  - repeat (apply keeps_bind;
            [first [apply keeps_inst_write
                   | apply triple_for_each; intros; apply keeps_inst_write
                   | by apply triple_modify]
            | intros _]).
    by apply triple_modify.
  - intros status. apply keeps_bind; [|intros; apply triple_raise].
    by apply triple_modify.
Qed.

Lemma keeps_apply_wiring_mode (wiring : string) :
  keeps On L (_apply_wiring_mode wiring).
Proof.
  unfold _apply_wiring_mode. apply keeps_bind; [apply triple_get|].
  intros w. destruct (w_inst w); [|apply triple_ret].
  eapply triple_on_visa_error; [|intros; apply triple_raise|done].
  apply triple_for_each. intros; apply keeps_inst_write.
Qed.

End Invariant.

(** *** The two parsers *)

(** X7.  [_parse_printed_lines] keeps exactly the lines that
    [_parse_measurement_line] accepts, in their order and with the same
    voltage and current: the data rebuilt from the printed lines when the
    buffer read-back falls short are the points the live plot was given. *)
Theorem parsers_agree (lines : list string) :
  _parse_printed_lines py_float lines
  = omap (_parse_measurement_line py_float) lines.
Proof.
  unfold _parse_printed_lines.
  assert (H : ∀ data,
    foldl
      (λ data line,
         let sanitized := py_strip (replace_char comma blank line) in
         let parts := py_split sanitized in
         if (length parts <? 3)%nat then data
         else
           match py_float (nth 0 parts EmptyString),
                 py_float (nth 1 parts EmptyString),
                 py_float (nth 2 parts EmptyString) with
           | Some _, Some voltage, Some current => data ++ [(voltage, current)]
           | _, _, _ => data
           end) data lines
    = data ++ omap (_parse_measurement_line py_float) lines).
  { induction lines as [|line lines IH]; intros data; simpl.
    - by rewrite app_nil_r.
    - rewrite IH. unfold _parse_measurement_line.
      destruct (py_split _) as [|a [|b [|c rest]]]; simpl; try done.
      destruct (py_float a), (py_float b), (py_float c); simpl;
        by rewrite <- ?app_assoc. }
  apply (H []).
Qed.

(** *** What a segment returns *)

(** Both lists are cut to the shorter of the two. *)
Lemma perform_sweep_pairs (params : sweep_params) (levels : list float)
    (tolerance : float) (run_idx segment_idx : nat) (seg : segment)
    (w w' : wstate) (voltages currents : list float) (printed : list string) :
  _perform_sweep py_float py_str params levels tolerance run_idx segment_idx
    seg w = (Ok (voltages, currents, printed), w') →
  length voltages = length currents.
Proof.
  unfold _perform_sweep. intros H.
  apply jbind_ok in H as (w0 & w1 & _ & H).
  destruct (w_inst w0); [|done].
  repeat (apply jbind_ok in H as (? & ? & _ & H)).
  match type of H with context [match ?x with _ => _ end] => destruct x end.
  injection H as <- <- _ _. rewrite !length_take. lia.
Qed.

(** X8.  The voltages and the currents that [_perform_sweep] returns for
    a segment have the same length, whatever the instrument sent and
    whichever of the buffer read-back and the printed lines they were
    taken from. *)
Theorem perform_sweep_parallel (params : sweep_params) (levels : list float)
    (tolerance : float) (run_idx segment_idx : nat) (seg : segment)
    (w w' : wstate) (voltages currents : list float) (printed : list string) :
  _perform_sweep py_float py_str params levels tolerance run_idx segment_idx
    seg w = (Ok (voltages, currents, printed), w') →
  length voltages = length currents.
Proof. apply perform_sweep_pairs. Qed.

(** *** The run entries *)

(** An entry whose measured voltages and currents pair up, with
    [point_count] their number. *)
Definition entry_ok (e : run_entry) : Prop :=
  length (actual_voltages e) = length (currents e)
  ∧ point_count e = length (currents e).

(** An update of the live plot whose entries are all right. *)
Definition sound_update (c : ui_call) : Prop :=
  match c with
  | UpdateLivePlot snapshot => Forall entry_ok snapshot
  | _ => False
  end.

(** Since the posted calls were [base], only sound updates were posted,
    and the run entries are all right. *)
Definition planned (base : list ui_call) (l : live) : Prop :=
  Forall entry_ok (run_entries l)
  ∧ ∃ updates, posted l = base ++ updates ∧ Forall sound_update updates.

(** Within a run: the lists of the run pair up as well. *)
Definition running (base : list ui_call) (l : live) : Prop :=
  length (run_voltages l) = length (run_currents l) ∧ planned base l.

Lemma update_current_ok (f : run_entry → run_entry) (entries : list run_entry) :
  (∀ e, entry_ok (f e)) → Forall entry_ok entries →
  Forall entry_ok (update_current f entries).
Proof.
  intros Hf Hall. unfold update_current.
  apply Forall_reverse in Hall.
  destruct (reverse entries) as [|current earlier]; [done|].
  apply Forall_reverse. apply Forall_cons in Hall as [_ Hall].
  by apply Forall_cons.
Qed.

Lemma post_update_running (base : list ui_call) (l : live)
    (sv sc : list float) (ci : nat) (rv rc rcm : list float)
    (rl : list string) (entries : list run_entry) :
  planned base l → length rv = length rc → Forall entry_ok entries →
  running base
    (post (UpdateLivePlot (_snapshot_entries entries))
          (Live sv sc ci rv rc rcm rl entries (posted l))).
Proof.
  intros (_ & updates & E & Hups) Hlen Hall. unfold post, running, planned.
  simpl. split; [done|]. split; [done|].
  exists (updates ++ [UpdateLivePlot entries]).
  split; [by rewrite E, app_assoc|].
  apply Forall_app. split; [done|]. by apply Forall_singleton.
Qed.

Lemma handle_point_running (base : list ui_call) (levels : list float)
    (tolerance voltage current : float) (l : live) :
  running base l → running base (handle_point levels tolerance voltage current l).
Proof.
  intros (Hlen & Hplanned). unfold handle_point.
  apply post_update_running; [done|by rewrite !length_app, Hlen|].
  apply update_current_ok; [|by destruct Hplanned].
  intros e. split; simpl; [by rewrite !length_app, Hlen | done].
Qed.

Lemma handle_line_running (base : list ui_call) (levels : list float)
    (tolerance : float) (line : string) (l : live) :
  running base l →
  running base (cb_state (handle_line py_float levels tolerance line l)).
Proof.
  intros H. unfold handle_line.
  destruct (_parse_measurement_line py_float line) as [[voltage current]|];
    [|done].
  simpl. by apply handle_point_running.
Qed.

Lemma reconcile_segment_running (base : list ui_call) (levels : list float)
    (tolerance : float) (run_idx segment_idx : nat) (seg : segment)
    (start_idx : nat) (voltages currents : list float) (lines : list string)
    (l : live) :
  length voltages = length currents →
  running base l →
  running base
    (reconcile_segment py_str levels tolerance run_idx segment_idx seg
       start_idx (voltages, currents, lines) l).
Proof.
  intros Hpair (Hlen & Hplanned). unfold reconcile_segment.
  destruct (match voltages with [] => _ | _ :: _ => _ end)
    as [commandeds flagged].
  assert (Hnew :
    length (match voltages with
            | [] => (run_voltages l, run_currents l)
            | _ :: _ =>
                (take (length (run_voltages l) - length voltages)
                      (run_voltages l) ++ voltages,
                 take (length (run_currents l) - length voltages)
                      (run_currents l) ++ currents)
            end).1
    = length (match voltages with
              | [] => (run_voltages l, run_currents l)
              | _ :: _ =>
                  (take (length (run_voltages l) - length voltages)
                        (run_voltages l) ++ voltages,
                   take (length (run_currents l) - length voltages)
                        (run_currents l) ++ currents)
              end).2).
  { destruct voltages as [|v rest]; cbn [fst snd]; [done|].
    rewrite !length_app, !length_take, Hlen, Hpair. lia. }
  destruct (match voltages with [] => _ | _ :: _ => _ end) as [vs cs].
  simpl in Hnew.
  apply post_update_running; [done|done|].
  apply update_current_ok; [|by destruct Hplanned].
  intros e. by split.
Qed.

Section Worker.

Variable On : stop_event → Prop.
Hypothesis On_poll : ∀ s, On s → On (is_set s).2.
Variable base : list ui_call.

Lemma keeps_perform_sweep (params : sweep_params) (levels : list float)
    (tolerance : float) (run_idx segment_idx : nat) (seg : segment) :
  keeps On (running base)
    (_perform_sweep py_float py_str params levels tolerance run_idx
       segment_idx seg).
Proof.
  unfold _perform_sweep. apply keeps_bind; [apply triple_get|]. intros w.
  destruct (w_inst w); [|apply triple_raise].
  apply keeps_bind; [by apply keeps_inst_write|]. intros _.
  apply keeps_bind; [by apply keeps_inst_write|]. intros _.
  apply keeps_bind; [by apply keeps_live|]. intros _.
  apply keeps_bind.
  { apply keeps_drain; [done|]. intros. by apply handle_line_running. }
  intros printed.
  apply keeps_bind; [by apply keeps_live|]. intros _.
  apply keeps_bind; [by apply keeps_inst_query|]. intros text.
  apply keeps_bind; [apply keeps_to_float|]. intros count_float.
  apply keeps_bind; [apply keeps_py_int|]. intros point_count.
  apply keeps_bind; [by apply keeps_fetch_buffer|]. intros voltages.
  apply keeps_bind; [by apply keeps_fetch_buffer|]. intros currents.
  match goal with |- keeps _ _ (match ?x with _ => _ end) => destruct x end.
  apply triple_ret.
Qed.

Lemma keeps_run_segment (params : sweep_params) (levels : list float)
    (tolerance : float) (run_idx : nat) (indexed : nat * segment) :
  keeps On (running base)
    (run_segment py_float py_str params levels tolerance run_idx indexed).
Proof.
  unfold run_segment. destruct indexed as [segment_idx seg].
  apply keeps_bind; [by apply keeps_stop_requested|]. intros [|];
    [apply triple_raise|].
  apply keeps_bind; [apply triple_get|]. intros w.
  eapply triple_bind_returned; [apply keeps_perform_sweep| |done].
  intros [[voltages currents] lines] (w1 & w2 & Hrun).
  apply keeps_live. intros l.
  apply reconcile_segment_running.
  by eapply perform_sweep_pairs.
Qed.

(** A run starts from empty lists and a new entry without points. *)
Lemma keeps_run_once (params : sweep_params) (segments : list segment)
    (levels : list float) (tolerance : float) (run_idx : nat) :
  keeps On (planned base)
    (run_once py_float py_str params segments levels tolerance run_idx).
Proof.
  unfold run_once.
  apply keeps_bind; [by apply keeps_stop_requested|]. intros [|];
    [apply triple_raise|].
  eapply (triple_bind _ (holds On (running base))).
  - apply triple_modify. intros w [Hon (Hall & Hposted)].
    split; [done|]. split; [done|]. split; [|done]. simpl.
    apply Forall_app. split; [done|]. by apply Forall_singleton.
  - intros _. eapply triple_post.
    + apply triple_for_each. intros x. apply keeps_run_segment.
    + by intros w [Hon [_ Hplanned]].
  - by intros w [Hon [_ Hplanned]].
Qed.

Lemma keeps_worker_body (params : sweep_params) (total_runs : nat)
    (wiring : string) (segments : list segment) (levels : list float)
    (tolerance : float) :
  keeps On (planned base)
    (worker_body py_float py_str tsp_script params total_runs wiring
       segments levels tolerance).
Proof.
  unfold worker_body.
  apply keeps_bind; [by apply keeps_ensure_script_loaded|]. intros _.
  apply keeps_bind; [by apply keeps_stop_requested|]. intros [|];
    [apply triple_ret|].
  apply keeps_bind; [by apply keeps_apply_wiring_mode|]. intros _.
  apply keeps_bind; [by apply keeps_stop_requested|]. intros [|];
    [apply triple_ret|].
  apply keeps_bind; [|intros; apply triple_ret].
  apply triple_for_each. intros x. apply keeps_run_once.
Qed.

End Worker.

(** *** What the worker posts *)


Definition is_update (c : ui_call) : Prop :=
  match c with
  | UpdateLivePlot _ => True
  | _ => False
  end.

(** The entries a call carries. *)
Definition entries_of (c : ui_call) : list run_entry :=
  match c with
  | UpdateLivePlot entries | SweepComplete entries => entries
  | SweepFailed _ => []
  end.

Lemma sound_update_is_update (c : ui_call) : sound_update c → is_update c.
Proof. by destruct c. Qed.

(** The state in which the [try] block starts. *)
Definition at_try (w : wstate) : wstate :=
  set_live (λ l,
    Live (segment_voltages l) (segment_currents l) (command_index l)
         (run_voltages l) (run_currents l) (run_commanded l) (run_lines l)
         [] (posted l)) w.

Lemma sweep_worker_unfold (fuel : nat) (params : sweep_params)
    (total_runs : nat) (wiring : string) (w : wstate) :
  _sweep_worker py_float py_str tsp_script fuel params total_runs wiring w
  = match _build_segments fuel params with
    | Spinning => (StillPlanning, w)
    | Raised e => (Died e, w)
    | Ok (segments, levels) =>
        match worker_body py_float py_str tsp_script params total_runs wiring
                segments levels
                (py_max (py_abs (step_v params) * 0.02)%float 1e-6%float)
                (at_try w) with
        | (Raised error, w) => (Finished, set_live (post (SweepFailed error)) w)
        | (Ok true, w) =>
            (Finished, set_live (λ l, post (SweepComplete (run_entries l)) l) w)
        | (Ok false, w) => (Finished, w)
        | (Spinning, w) => (StillPlanning, w)
        end
    end.
Proof. reflexivity. Qed.

(** The common ground of the theorems below. *)
Lemma worker_posts (On : stop_event → Prop) (fuel : nat)
    (params : sweep_params) (total_runs : nat) (wiring : string) (w : wstate) :
  (∀ s, On s → On (is_set s).2) → On (w_stop w) →
  ∃ updates verdict,
    posted (w_live (_sweep_worker py_float py_str tsp_script fuel params
                      total_runs wiring w).2)
    = posted (w_live w) ++ updates ++ verdict
    ∧ On (w_stop (_sweep_worker py_float py_str tsp_script fuel params
                    total_runs wiring w).2)
    ∧ Forall sound_update updates
    ∧ (verdict = []
       ∨ (∃ error, verdict = [SweepFailed error])
       ∨ (∃ entries, verdict = [SweepComplete entries]
                     ∧ Forall entry_ok entries))
    ∧ ((_sweep_worker py_float py_str tsp_script fuel params total_runs
          wiring w).1 ≠ Finished →
       updates = [] ∧ verdict = []).
Proof.
  intros On_poll Hon. rewrite sweep_worker_unfold.
  destruct (_build_segments fuel params) as [[segments levels]|e|].
  2,3: exists [], []; simpl; rewrite app_nil_r; repeat split; auto.
  destruct (keeps_worker_body On On_poll (posted (w_live w)) params total_runs
              wiring segments levels
              (py_max (py_abs (step_v params) * 0.02) 1e-6) (at_try w))
    as (Hend & Hkeep).
  destruct Hkeep as (Hon' & Hall & updates & E & Hups).
  { split; [done|]. split; [done|]. exists []. by rewrite app_nil_r. }
  destruct (worker_body _ _ _ _ _ _ _ _ _ (at_try w)) as [[[|]|error|] w1];
    simpl in *; [| | |done].
  - exists updates, [SweepComplete (run_entries (w_live w1))].
    rewrite E, app_assoc. split; [done|]. split; [done|]. split; [done|].
    split; [right; right; by eexists | done].
  - exists updates, []. rewrite E, app_nil_r. split; [done|].
    split; [done|]. split; [done|]. split; [by left | done].
  - exists updates, [SweepFailed error].
    rewrite E, app_assoc. split; [done|]. split; [done|]. split; [done|].
    split; [right; left; by eexists | done].
Qed.

(** X9.  What the worker posts is a run of live-plot updates followed by
    at most one verdict, which is then the last call posted:
    [_on_sweep_failed] or [_on_sweep_complete], never both, and no update
    after it.  A thread that ends in the planner posts nothing. *)
Theorem worker_posts_one_verdict (fuel : nat) (params : sweep_params)
    (total_runs : nat) (wiring : string) (w : wstate) :
  ∃ updates verdict,
    posted (w_live (_sweep_worker py_float py_str tsp_script fuel params
                      total_runs wiring w).2)
    = posted (w_live w) ++ updates ++ verdict
    ∧ Forall is_update updates
    ∧ (verdict = []
       ∨ (∃ error, verdict = [SweepFailed error])
       ∨ (∃ entries, verdict = [SweepComplete entries]))
    ∧ ((_sweep_worker py_float py_str tsp_script fuel params total_runs
          wiring w).1 ≠ Finished →
       updates = [] ∧ verdict = []).
Proof.
  destruct (worker_posts (λ _, True) fuel params total_runs wiring w)
    as (updates & verdict & E & _ & Hups & Hverdict & Hplanner); [done..|].
  exists updates, verdict. split; [done|]. split.
  { eapply Forall_impl; [exact Hups | apply sound_update_is_update]. }
  split; [|done].
  destruct Hverdict as [?|[?|(entries & ? & _)]]; eauto.
Qed.

(** X10.  In every entry the worker hands over, in an update of the live
    plot or with [_on_sweep_complete], the measured voltages and the
    currents have the same length and [point_count] is that length,
    whatever the instrument sent. *)
Theorem posted_entries_pair_up (fuel : nat) (params : sweep_params)
    (total_runs : nat) (wiring : string) (w : wstate) :
  ∃ calls,
    posted (w_live (_sweep_worker py_float py_str tsp_script fuel params
                      total_runs wiring w).2)
    = posted (w_live w) ++ calls
    ∧ ∀ c e, c ∈ calls → e ∈ entries_of c →
             length (actual_voltages e) = length (currents e)
             ∧ point_count e = length (currents e).
Proof.
  destruct (worker_posts (λ _, True) fuel params total_runs wiring w)
    as (updates & verdict & E & _ & Hups & Hverdict & _); [done..|].
  exists (updates ++ verdict). split; [done|].
  intros c e Hc He. apply elem_of_app in Hc as [Hc|Hc].
  - rewrite Forall_forall in Hups. specialize (Hups c Hc).
    destruct c; simpl in *; try done.
    rewrite Forall_forall in Hups. by apply Hups.
  - destruct Hverdict as [->|[(error & ->)|(entries & -> & Hall)]].
    + by apply elem_of_nil in Hc.
    + apply list_elem_of_singleton in Hc as ->. by apply elem_of_nil in He.
    + apply list_elem_of_singleton in Hc as ->. simpl in He.
      rewrite Forall_forall in Hall. by apply Hall.
Qed.


(** *** Cancellation *)


Lemma stop_requested_set (w : wstate) :
  w_stop w = Some 0 → stop_requested w = (Ok true, w).
Proof. intros H. unfold stop_requested. rewrite H. by destruct w; simplify_eq/=. Qed.


(** With the stop event set from the start the [try] block returns early
    or raises in [ensure_script_loaded]; what it leaves is what
    [ensure_script_loaded] leaves. *)
Lemma worker_body_cancelled (params : sweep_params) (total_runs : nat)
    (wiring : string) (segments : list segment) (levels : list float)
    (tolerance : float) (w : wstate) :
  w_stop w = Some 0 →
  worker_body py_float py_str tsp_script params total_runs wiring segments
    levels tolerance w
  = match ensure_script_loaded tsp_script w with
    | (Ok _, w1) => (Ok false, w1)
    | (Raised e, w1) => (Raised e, w1)
    | (Spinning, w1) => (Spinning, w1)
    end.
Proof.
  intros Hset. unfold worker_body.
  destruct (keeps_ensure_script_loaded (λ s, s = Some 0) (λ _, True) w)
    as [_ Hkeep].
  destruct Hkeep as [Hset1 _]; [done|].
  unfold jbind at 1.
  destruct (ensure_script_loaded tsp_script w) as [[[]|e|] w1]; [|done..].
  simpl in Hset1. unfold jbind at 1.
  by rewrite (stop_requested_set w1 Hset1).
Qed.




(** X13.  A worker whose stop event is set when it starts posts no update
    of the live plot and no [_on_sweep_complete]; it leaves the session as
    [ensure_script_loaded] leaves it, so neither the wiring commands nor a
    sweep command are written. *)
Theorem cancelled_worker_never_sweeps (fuel : nat) (params : sweep_params)
    (total_runs : nat) (wiring : string) (w : wstate)
    (plan : list segment * list float) :
  w_stop w = Some 0 →
  _build_segments fuel params = Ok plan →
  w_inst (_sweep_worker py_float py_str tsp_script fuel params total_runs
            wiring w).2
  = w_inst (ensure_script_loaded tsp_script (at_try w)).2
  ∧ (posted (w_live (_sweep_worker py_float py_str tsp_script fuel params
                       total_runs wiring w).2)
     = posted (w_live w)
     ∨ ∃ error,
         posted (w_live (_sweep_worker py_float py_str tsp_script fuel params
                           total_runs wiring w).2)
         = posted (w_live w) ++ [SweepFailed error]).
Proof.
  intros Hset Hplan. rewrite sweep_worker_unfold, Hplan.
  destruct plan as [segments levels].
  rewrite (worker_body_cancelled params total_runs wiring segments levels
             _ (at_try w) Hset).
  destruct (keeps_ensure_script_loaded (λ _, True)
              (λ l, posted l = posted (w_live w)) (at_try w))
    as [Hend Hkeep].
  destruct Hkeep as [_ Hposted]; [done|].
  destruct (ensure_script_loaded tsp_script (at_try w)) as [[[]|e|] w1];
    simpl in *; [by auto| |done].
  split; [done|]. right. exists e. by rewrite Hposted.
Qed.

(** *** Loading the script *)

Lemma ensure_script_loaded_flag (w : wstate) (i : instrument) :
  w_inst w = Some i →
  w_script_loaded (ensure_script_loaded tsp_script w).2
  = match (ensure_script_loaded tsp_script w).1 with
    | Ok _ => true
    | _ => false
    end.
Proof.
  intros Hinst.
  destruct (ensure_script_loaded tsp_script w) as [r w'] eqn:E. simpl.
  revert E. unfold ensure_script_loaded, jbind at 1. simpl.
  rewrite Hinst. destruct (w_script_loaded w) eqn:Hflag;
    [by intros [= <- <-]|].
  destruct tsp_script as [script_lines|]; [|by intros [= <- <-]].
  set (writes :=
         (inst_write "loadscript IVMultiple" ;;
          for_each script_lines inst_write ;;
          inst_write "function IVMultiple_run(start_v, stop_v, step_v, ilimit, nplc, settle_s)" ;;
          inst_write "    return iv_sweep_linear(start_v, stop_v, step_v, ilimit, nplc, settle_s)" ;;
          inst_write "end" ;;
          inst_write "endscript" ;;
          inst_write "IVMultiple()")%string).
  assert (Hwrites : triple (λ w, w_script_loaded w = false) writes
                      (λ w, w_script_loaded w = false)).
  { assert (Hwrite : ∀ line, triple (λ w, w_script_loaded w = false)
                               (inst_write line)
                               (λ w, w_script_loaded w = false)).
    { intros line w0. unfold inst_write. destruct (w_inst w0) as [j|]; [|done].
      by destruct (write j line) as [j' [status|]]. }
    unfold writes.
    repeat (eapply triple_bind;
            [first [apply Hwrite | apply triple_for_each; apply Hwrite]
            | intros _ | done]).
    apply Hwrite. }
  assert (Hsplit : ∀ k : job wstate unit,
    (inst_write "loadscript IVMultiple" ;;
     for_each script_lines inst_write ;;
     inst_write "function IVMultiple_run(start_v, stop_v, step_v, ilimit, nplc, settle_s)" ;;
     inst_write "    return iv_sweep_linear(start_v, stop_v, step_v, ilimit, nplc, settle_s)" ;;
     inst_write "end" ;;
     inst_write "endscript" ;;
     inst_write "IVMultiple()" ;; k)%string w
    = jbind writes (λ _, k) w).
  { intros k. unfold writes, jbind.
    repeat match goal with
           | |- context [match ?m ?s with _ => _ end] =>
               destruct (m s) as [[[]|?|] ?]; try done
           end. }
  unfold on_visa_error. rewrite Hsplit. unfold jbind at 1.
  destruct (Hwrites w) as [Hend Hkeep]. specialize (Hkeep Hflag).
  destruct (writes w) as [[[]|[?|?|?|?|status]|] w1]; simpl in *;
    by intros [= <- <-].
Qed.

(** X14.  On an open session [self.script_loaded] tells how
    [ensure_script_loaded] ended: it is set when the call returns and
    clear when the call raises, be it for the missing file or for a write
    that failed half-way through the script. *)
Theorem script_flag_tells_outcome (w : wstate) (i : instrument) :
  w_inst w = Some i →
  w_script_loaded (ensure_script_loaded tsp_script w).2
  = match (ensure_script_loaded tsp_script w).1 with
    | Ok _ => true
    | _ => false
    end.
Proof. apply ensure_script_loaded_flag. Qed.

(** X15.  The script is loaded once: after a call of
    [ensure_script_loaded] that returned, a further call returns at once
    and writes nothing. *)
Theorem script_loaded_once (w w1 : wstate) :
  ensure_script_loaded tsp_script w = (Ok tt, w1) →
  ensure_script_loaded tsp_script w1 = (Ok tt, w1).
Proof.
  intros Hfirst.
  assert (Hopen : is_Some (w_inst w)).
  { revert Hfirst. unfold ensure_script_loaded, jbind at 1. simpl.
    by destruct (w_inst w). }
  destruct Hopen as [i Hinst].
  pose proof (ensure_script_loaded_flag w i Hinst) as Hflag.
  rewrite Hfirst in Hflag. simpl in Hflag.
  assert (Hkept : is_Some (w_inst w1)).
  { assert (Hwrite : ∀ line, triple (λ w, is_Some (w_inst w))
                               (inst_write line)
                               (λ w, is_Some (w_inst w))).
    { intros line w0. unfold inst_write.
      destruct (w_inst w0) as [j|] eqn:Ej; [|split; [done | by simpl]].
      destruct (write j line) as [j' [status|]];
        (split; [done | intros _; simpl; eauto]). }
    assert (Hensure : triple (λ w, is_Some (w_inst w))
                        (ensure_script_loaded tsp_script)
                        (λ w, is_Some (w_inst w))).
    { unfold ensure_script_loaded.
      eapply triple_bind; [apply triple_get| |done]. intros w0.
      destruct (w_inst w0); [|apply triple_raise].
      destruct (w_script_loaded w0); [apply triple_ret|].
      destruct tsp_script as [script_lines|]; [|apply triple_raise].
      eapply (triple_on_visa_error _ (λ w, is_Some (w_inst w)));
        [| |by intros].
      - repeat (eapply triple_bind;
                [first [apply Hwrite
                       | apply triple_for_each; apply Hwrite
                       | by apply triple_modify]
                | intros _ | done]).
        by apply triple_modify.
      - intros status. eapply triple_bind; [|intros; apply triple_raise|done].
        by apply triple_modify. }
    destruct (Hensure w) as [_ Hkeep]. rewrite Hfirst in Hkeep.
    apply Hkeep. by exists i. }
  destruct Hkept as [j Hinst1].
  unfold ensure_script_loaded, jbind at 1. simpl.
  by rewrite Hinst1, Hflag.
Qed.

End Builtins.

(** *** The theorems at work *)

Lemma perform_sweep_parallel_witness :
  (_perform_sweep App.scenario_float App.scenario_str default_params
     [0%float] 1e-6 0 0 (0, 4, 0.1)%float measuring_worker).1
  = Ok ([0%float], [1e-9%float], ["1, 0, 1e-9"])
  ∧ length [0%float] = length [1e-9%float].
Proof.
  assert (H : _perform_sweep App.scenario_float App.scenario_str
                default_params [0%float] 1e-6 0 0 (0, 4, 0.1)%float
                measuring_worker
              = (Ok ([0%float], [1e-9%float], ["1, 0, 1e-9"]),
                 (_perform_sweep App.scenario_float App.scenario_str
                    default_params [0%float] 1e-6 0 0 (0, 4, 0.1)%float
                    measuring_worker).2))
    by (vm_compute; reflexivity).
  split; [vm_compute; reflexivity|].
  exact (perform_sweep_parallel App.scenario_float App.scenario_str
           default_params [0%float] 1e-6 0 0 (0, 4, 0.1)%float
           measuring_worker _ _ _ _ H).
Defined.


Lemma cancelled_worker_never_sweeps_witness :
  w_inst (_sweep_worker App.scenario_float App.scenario_str
            (Some short_script) 40 default_params 1 "4-wire"
            cancelled_worker).2
  = w_inst (ensure_script_loaded (Some short_script)
              (at_try cancelled_worker)).2
  ∧ (posted (w_live (_sweep_worker App.scenario_float App.scenario_str
                       (Some short_script) 40 default_params 1 "4-wire"
                       cancelled_worker).2)
     = posted (w_live cancelled_worker)
     ∨ ∃ error,
         posted (w_live (_sweep_worker App.scenario_float App.scenario_str
                           (Some short_script) 40 default_params 1 "4-wire"
                           cancelled_worker).2)
         = posted (w_live cancelled_worker) ++ [SweepFailed error]).
Proof.
  destruct PlannerFacts.default_plan_at_40 as (path & Hplan & _).
  exact (cancelled_worker_never_sweeps App.scenario_float App.scenario_str
           (Some short_script) 40 default_params 1 "4-wire" cancelled_worker
           (default_segments, path) eq_refl Hplan).
Defined.

Lemma script_flag_tells_outcome_witness :
  w_script_loaded (ensure_script_loaded None fresh_worker).2
  = match (ensure_script_loaded None fresh_worker).1 with
    | Ok _ => true
    | _ => false
    end.
Proof.
  exact (script_flag_tells_outcome None fresh_worker (Instrument [] [] None)
           eq_refl).
Defined.

Lemma script_loaded_once_witness :
  ensure_script_loaded (Some short_script)
    (ensure_script_loaded (Some short_script) fresh_worker).2
  = (Ok tt, (ensure_script_loaded (Some short_script) fresh_worker).2).
Proof.
  apply (script_loaded_once (Some short_script) fresh_worker).
  vm_compute. reflexivity.
Defined.

End SweepExtra.

(** ** The session between the two windows *)

Module AppExtra.
Import PyFloat Py Visa Planner Sweep App Closing Samples.

(** *** The lock of the listener *)

(** X16.  Locking a locked listener, or unlocking an unlocked one, does
    nothing: the status line saved by the first lock is not overwritten
    by a second. *)
Theorem lock_is_idempotent (locked : bool) (a : app) :
  set_instrument_lock locked (set_instrument_lock locked a)
  = set_instrument_lock locked a.
Proof.
  unfold set_instrument_lock.
  destruct locked, (_instrument_locked (trigger a)) eqn:E; simpl;
    by rewrite ?E.
Qed.

(** X17.  A lock followed by an unlock gives the listener its status line
    back, or "Trigger operations unlocked." when the line was empty; the
    sessions and the sweep window are not touched. *)
Theorem lock_round_trip (a : app) :
  _instrument_locked (trigger a) = false →
  trigger (set_instrument_lock false (set_instrument_lock true a))
  = TriggerGui (tg_inst (trigger a)) (tg_rm (trigger a))
               (tg_address (trigger a))
               (if truthy (status_var (trigger a)) then status_var (trigger a)
                else "Trigger operations unlocked.")
               false None
  ∧ iv (set_instrument_lock false (set_instrument_lock true a)) = iv a
  ∧ sessions (set_instrument_lock false (set_instrument_lock true a))
    = sessions a
  ∧ trace (set_instrument_lock false (set_instrument_lock true a))
    = trace a ++ [Locked true; Locked false].
Proof.
  intros Hfree. unfold set_instrument_lock. rewrite Hfree. simpl.
  split; [by destruct (status_var (trigger a))|].
  by rewrite <- app_assoc.
Qed.

Lemma lock_round_trip_witness :
  status_var
    (trigger (set_instrument_lock false
                (set_instrument_lock true triggered_app)))
  = "Trigger received.".
Proof.
  exact (f_equal status_var
           (proj1 (lock_round_trip triggered_app eq_refl))).
Defined.

(** *** The end of a sweep *)

(** What [_on_sweep_complete] and [_on_sweep_failed] of the integrated
    window do after the method of the base class. *)
Definition hand_back (a : app) : app :=
  let a := _notify_run_state false a in
  if using_shared_session (iv a) then release_shared_instrument a else a.

Lemma on_sweep_failed_unfold (error : exn) (a : app) :
  _on_sweep_failed error a = hand_back (base_on_sweep_failed error a).
Proof. reflexivity. Qed.

Lemma on_sweep_complete_unfold (entries : list run_entry) (a : app) :
  _on_sweep_complete entries a = hand_back (base_on_sweep_complete entries a).
Proof. reflexivity. Qed.

Lemma hand_back_spec (a : app) :
  _instrument_locked (trigger (hand_back a)) = false
  ∧ using_shared_session (iv (hand_back a)) = false
  ∧ (using_shared_session (iv a) = true → inst (iv (hand_back a)) = None)
  ∧ sessions (hand_back a) = sessions a
  ∧ tg_inst (trigger (hand_back a)) = tg_inst (trigger a)
  ∧ sweep_thread (iv (hand_back a)) = sweep_thread (iv a)
  ∧ data (iv (hand_back a)) = data (iv a)
  ∧ trace (hand_back a)
    = trace a
      ++ (if _instrument_locked (trigger a) then [Locked false] else [])
      ++ (if using_shared_session (iv a) then [Released] else []).
Proof.
  destruct a as [[ti trm tad tst tl tb]
                 [ii irm isl ish ith isf icc ifo ibt ida ilo] ses tr].
  unfold hand_back, _notify_run_state, set_instrument_lock,
    release_shared_instrument.
  destruct tl, ish; simpl; rewrite ?app_nil_r, <- ?app_assoc; done.
Qed.

Lemma base_on_sweep_complete_frame (entries : list run_entry) (a : app) :
  trigger (base_on_sweep_complete entries a) = trigger a
  ∧ using_shared_session (iv (base_on_sweep_complete entries a))
    = using_shared_session (iv a)
  ∧ sweep_thread (iv (base_on_sweep_complete entries a))
    = sweep_thread (iv a)
  ∧ sessions (base_on_sweep_complete entries a) = sessions a
  ∧ trace (base_on_sweep_complete entries a) = trace a.
Proof. unfold base_on_sweep_complete. by destruct (last entries). Qed.

(** X18.  The failure path.  [_on_sweep_failed] shows the error, throws
    away the data of the sweep, the runs already plotted included, unlocks
    the listener and only then gives the shared session back.  It writes
    nothing to the instrument: every open session is as it was. *)
Theorem failure_path (error : exn) (a : app) :
  sessions (_on_sweep_failed error a) = sessions a
  ∧ data (iv (_on_sweep_failed error a)) = cleared (last_params (data (iv a)))
  ∧ _instrument_locked (trigger (_on_sweep_failed error a)) = false
  ∧ using_shared_session (iv (_on_sweep_failed error a)) = false
  ∧ (using_shared_session (iv a) = true →
     inst (iv (_on_sweep_failed error a)) = None)
  ∧ trace (_on_sweep_failed error a)
    = trace a
      ++ [Dialog ShowError "Sweep" (exn_text error)]
      ++ (if _instrument_locked (trigger a) then [Locked false] else [])
      ++ (if using_shared_session (iv a) then [Released] else []).
Proof.
  rewrite on_sweep_failed_unfold.
  destruct (hand_back_spec (base_on_sweep_failed error a))
    as (Hlock & Hshared & Hinst & Hses & _ & _ & Hdata & Htrace).
  repeat split; try done.
  rewrite Htrace. simpl. by rewrite <- app_assoc.
Qed.


(** *** The thread and the event loop *)





Section Builtins.

Variable py_float : string → option float.
Variable py_str : float → string.
Variable tsp_script : option (list string).




End Builtins.

(** *** The parameters of a sweep *)

Lemma abs_not_negative (x : float) : lt (py_abs x) 0%float = false.
Proof.
  unfold lt, py_abs. rewrite ltb_spec, abs_spec.
  change (Prim2SF 0) with (S754_zero false).
  by destruct (Prim2SF x) as [[|]|[|]| |[|] m e].
Qed.

Lemma py_max_floor (x floor : float) :
  lt floor floor = false → lt (py_max x floor) floor = false.
Proof.
  intros Hfloor. unfold py_max, gt, lt in *.
  by destruct (PrimFloat.ltb x floor) eqn:E.
Qed.

Section Parameters.

Variable py_float : string → option float.

(** X22.  What [_collect_parameters] returns can be run: the step is not
    zero, the number of runs is at least one, and the compliance current,
    the NPLC and the settle time are not below 0, 0.001 and 0. *)
Theorem collect_parameters_sane (f : form) (params : sweep_params)
    (total_runs : nat) :
  _collect_parameters py_float f = Ok (params, total_runs) →
  PrimFloat.eqb (step_v params) 0%float = false
  ∧ 1 ≤ total_runs
  ∧ lt (ilimit params) 0%float = false
  ∧ lt (nplc params) 0.001%float = false
  ∧ lt (settle params) 0%float = false.
Proof.
  unfold _collect_parameters, parse_float.
  destruct (py_float (start_var f)) as [start|]; [|done].
  destruct (py_float (stop_var f)) as [stop|]; [|done].
  destruct (py_float (step_var f)) as [step|]; [|done]. simpl.
  destruct (PrimFloat.eqb step 0) eqn:Hstep; [done|].
  destruct (py_float (ilimit_var f)) as [limit|]; [|done].
  destruct (py_float (nplc_var f)) as [cycles|]; [|done].
  destruct (py_float (settle_var f)) as [delay|]; [|done]. simpl.
  destruct (truthy _); [|done]. simpl.
  destruct (py_float (py_strip _)) as [runs|]; [|done].
  destruct (is_integer runs); [|done]. simpl.
  destruct (py_int runs) as [n| |]; [|done..]. simpl.
  destruct (n <? 1)%Z eqn:Hn; [done|].
  intros [= <- <-]. simpl. apply Z.ltb_ge in Hn.
  split; [done|]. split; [lia|]. split; [apply abs_not_negative|].
  split; by apply py_max_floor.
Qed.

(** X23.  A zero in the step field is refused before anything is started:
    with no sweep running, [start_sweep] shows one error dialog and
    changes nothing else; no thread is created, the listener is not
    locked and nothing is written to the instrument. *)
Theorem zero_step_never_starts (a : app) (handle : nat) (step : float) :
  inst (iv a) = Some handle →
  is_sweep_running a = false →
  py_float (step_var (fields (iv a))) = Some step →
  PrimFloat.eqb step 0%float = true →
  ∃ message,
    start_sweep py_float a = emit (Dialog ShowError "Parameters" message) a.
Proof.
  intros Hinst Hidle Hstep Hzero.
  destruct (AppFacts.collect_parameters_zero_step_raises py_float
              (fields (iv a)) step Hstep Hzero) as (message & Hraise).
  exists message. unfold start_sweep, base_start_sweep.
  rewrite Hinst, Hraise. simpl.
  unfold is_sweep_running in *. simpl. by rewrite Hidle.
Qed.

End Parameters.

(** *** Closing the sweep window *)

(** X24.  The sweep window never closes a session it was lent: while it
    uses the shared session, disconnecting it, stopping it, releasing the
    session and the end of a sweep all leave every open session open. *)
Theorem lent_session_stays_open (a : app) (error : exn)
    (entries : list run_entry) :
  using_shared_session (iv a) = true →
  ∀ op, op ∈ [disconnect_instrument; _stop_and_cleanup;
              release_shared_instrument; _on_sweep_failed error;
              _on_sweep_complete entries] →
        sessions (op a) = sessions a
        ∧ tg_inst (trigger (op a)) = tg_inst (trigger a).
Proof.
  intros Hshared op Hop.
  destruct a as [[ti trm tad tst tl tb]
                 [ii irm isl ish ith isf icc ifo ibt ida ilo] ses tr].
  simpl in Hshared. subst ish.
  repeat (apply elem_of_cons in Hop as [->|Hop]);
    [| | | | |by apply elem_of_nil in Hop].
  - done.
  - unfold _stop_and_cleanup, is_sweep_running, _notify_run_state,
      set_instrument_lock. simpl. by destruct ith, tl.
  - done.
  - rewrite on_sweep_failed_unfold.
    by destruct (hand_back_spec
                   (base_on_sweep_failed error
                      (AppState (TriggerGui ti trm tad tst tl tb)
                         (IvApp ii irm isl true ith isf icc ifo ibt ida ilo)
                         ses tr)))
      as (_ & _ & _ & -> & -> & _).
  - rewrite on_sweep_complete_unfold.
    destruct (hand_back_spec
                (base_on_sweep_complete entries
                   (AppState (TriggerGui ti trm tad tst tl tb)
                      (IvApp ii irm isl true ith isf icc ifo ibt ida ilo)
                      ses tr)))
      as (_ & _ & _ & -> & -> & _).
    by destruct (base_on_sweep_complete_frame entries
                   (AppState (TriggerGui ti trm tad tst tl tb)
                      (IvApp ii irm isl true ith isf icc ifo ibt ida ilo)
                      ses tr))
      as (-> & _ & _ & -> & _).
Qed.


(** *** The theorems at work *)



Lemma collect_parameters_sane_witness :
  _collect_parameters scenario_float default_form = Ok (default_params, 1)
  ∧ 1 ≤ 1.
Proof.
  assert (H : _collect_parameters scenario_float default_form
              = Ok (default_params, 1)) by (vm_compute; reflexivity).
  split; [exact H|].
  exact (proj1 (proj2 (collect_parameters_sane scenario_float default_form
                         default_params 1 H))).
Defined.

Lemma zero_step_never_starts_witness :
  ∃ message,
    start_sweep scenario_float zero_step_app
    = emit (Dialog ShowError "Parameters" message) zero_step_app.
Proof.
  apply (zero_step_never_starts scenario_float zero_step_app 7 0%float);
    reflexivity.
Defined.

Lemma lent_session_stays_open_witness :
  using_shared_session (iv sweeping_app) = true
  ∧ sessions (_stop_and_cleanup sweeping_app) = sessions sweeping_app.
Proof.
  assert (H : using_shared_session (iv sweeping_app) = true)
    by (vm_compute; reflexivity).
  split; [exact H|].
  refine (proj1 (lent_session_stays_open sweeping_app
                   (RuntimeError "Sweep cancelled.") [] H _stop_and_cleanup
                   _)).
  apply list_elem_of_further, list_elem_of_here.
Defined.

End AppExtra.
